(** * Message fan-out and delivery state of the event-management API

    A shallow embedding of [MessagesService] (messages.service.ts) and of
    the message part of [MobileService] (mobile.service.ts), over a model
    of the Prisma client they call.  Tables are lists of rows in table
    order; a service method is a computation in a state-and-exception
    monad over the database. *)

From Stdlib Require Import ZArith.
From stdpp Require Import base decidable option list numbers strings pretty sorting gmap.

Open Scope string_scope.
Open Scope list_scope.
Open Scope Z_scope.

(** ** JavaScript values reaching the services *)

(** An optional string property of a request body ([data: any]):
    absent, JSON null, or a string. *)
Inductive Field :=
  | Undefined
  | Null
  | Str (s : string).

(** JavaScript truthiness of such a property: [if (data.attendeeId)]. *)
Definition truthy (f : Field) : bool :=
  match f with
  | Str s => negb (bool_decide (s = ""))
  | _ => false
  end.

(** [f || d] for a string default. *)
Definition orElse (f : Field) (d : string) : string :=
  match f with
  | Str s => if bool_decide (s = "") then d else s
  | _ => d
  end.

(** What Prisma stores in a nullable column when handed the property:
    undefined leaves the column at null. *)
Definition toColumn (f : Field) : option string :=
  match f with
  | Str s => Some s
  | _ => None
  end.

(** JSON values, for the [attachments] column. *)
Unset Elimination Schemes.
Inductive Json :=
  | JNull
  | JBool (b : bool)
  | JNum (n : Z)
  | JStr (s : string)
  | JArr (items : list Json)
  | JObj (members : list (string * Json)).
Set Elimination Schemes.

Definition truthyJson (j : Json) : bool :=
  match j with
  | JNull => false
  | JBool b => b
  | JNum n => negb (bool_decide (n = 0))
  | JStr s => negb (bool_decide (s = ""))
  | JArr _ | JObj _ => true
  end.

(** [j || {}] *)
Definition orEmptyObject (j : option Json) : Json :=
  match j with
  | Some v => if truthyJson v then v else JObj []
  | None => JObj []
  end.

(** Timestamps ([Date]) are instants on the integer line. *)
Definition Date := Z.

(** ** Rows *)

(** Modelled from the spec: the Prisma schema (schema.prisma) is not among
    the sources.  The delivery state of a message is one of [delivered] and
    [queued] (data model of the spec); the services write and compare the
    literals 'delivered' and 'queued'. *)
Inductive DeliveryStatus :=
  | delivered
  | queued.

Global Instance DeliveryStatus_eq_dec : EqDecision DeliveryStatus.
Proof. solve_decision. Defined.

(** The columns of [Attendee] the message services read. *)
Module Attendee.
Record t := mk {
  id : string;
  eventId : string;
  email : string;
  acceptedAt : option Date;
}.
End Attendee.

Module Invite.
Record t := mk {
  id : string;
  eventId : string;
  email : string;
  status : string;
}.
End Invite.

Module MobileMessage.
Record t := mk {
  id : string;
  eventId : string;
  attendeeId : option string;
  inviteId : option string;
  title : string;
  body : string;
  attachments : Json;
  status : string;
  deliveryStatus : DeliveryStatus;
  unread : bool;
  deliveredAt : option Date;
  createdAt : Date;
  updatedAt : Date;
}.
End MobileMessage.

Module Broadcast.
Record t := mk {
  id : string;
  eventId : string;
  title : string;
  bodyHtml : string;
  status : string;
  sentAt : option Date;
}.
End Broadcast.

(** ** The database and the monad of service methods *)

Record Db := mkDb {
  attendee : list Attendee.t;
  invite : list Invite.t;
  mobileMessage : list MobileMessage.t;
  broadcast : list Broadcast.t;
  clock : Date;
}.

Inductive Exn :=
  | NotFoundException (message : string)
  | PrismaError (code : string).

Inductive Completion (A : Type) :=
  | Returned (a : A)
  | Thrown (e : Exn).
Arguments Returned {A} a.
Arguments Thrown {A} e.

Definition M (A : Type) : Type := Db → Completion A * Db.

Global Instance M_ret : MRet M := λ A a db, (Returned a, db).

Global Instance M_bind : MBind M := λ A B k m db,
  match m db with
  | (Returned a, db') => k a db'
  | (Thrown e, db') => (Thrown e, db')
  end.

Definition throw {A} (e : Exn) : M A := λ db, (Thrown e, db).

(** [new Date()] *)
Definition newDate : M Date := λ db, (Returned (clock db), db).

(** [await Promise.all(xs.map(async x => f x))]: the calls are issued in
    list order. *)
Fixpoint promiseAllMap {A B} (f : A → M B) (xs : list A) : M (list B) :=
  match xs with
  | [] => mret []
  | x :: xs' => y ← f x; ys ← promiseAllMap f xs'; mret (y :: ys)
  end.

(** ** The Prisma client *)

(** Modelled from the spec: the Prisma schema (schema.prisma) is not among
    the sources, so what it fixes for [MobileMessage] is a parameter of the
    development: the generator behind the [id] default, the default of the
    [deliveryStatus] column (used when [create] is not given one), and
    whether [updatedAt] is refreshed by the client on every update. *)
Record Schema := mkSchema {
  cuid : list MobileMessage.t → string;
  defaultDeliveryStatus : DeliveryStatus;
  refreshesUpdatedAt : bool;
}.

(** The [data] argument of [prisma.mobileMessage.create]. *)
Module MobileMessageCreateInput.
Record t := mk {
  eventId : string;
  attendeeId : option string;
  inviteId : option string;
  title : string;
  body : string;
  attachments : Json;
  status : string;
  deliveryStatus : option DeliveryStatus;
  unread : bool;
  deliveredAt : option Date;
}.
End MobileMessageCreateInput.

(** Field updates of a message row, the [data] of [update]/[updateMany]. *)
Definition set_attendeeId (v : option string) (m : MobileMessage.t) : MobileMessage.t :=
  let 'MobileMessage.mk i e _ inv t b at_ st ds u da ca ua := m in
  MobileMessage.mk i e v inv t b at_ st ds u da ca ua.

Definition set_deliveryStatus (v : DeliveryStatus) (m : MobileMessage.t) : MobileMessage.t :=
  let 'MobileMessage.mk i e a inv t b at_ st _ u da ca ua := m in
  MobileMessage.mk i e a inv t b at_ st v u da ca ua.

Definition set_deliveredAt (v : option Date) (m : MobileMessage.t) : MobileMessage.t :=
  let 'MobileMessage.mk i e a inv t b at_ st ds u _ ca ua := m in
  MobileMessage.mk i e a inv t b at_ st ds u v ca ua.

Definition set_unread (v : bool) (m : MobileMessage.t) : MobileMessage.t :=
  let 'MobileMessage.mk i e a inv t b at_ st ds _ da ca ua := m in
  MobileMessage.mk i e a inv t b at_ st ds v da ca ua.

Definition set_updatedAt (v : Date) (m : MobileMessage.t) : MobileMessage.t :=
  let 'MobileMessage.mk i e a inv t b at_ st ds u da ca _ := m in
  MobileMessage.mk i e a inv t b at_ st ds u da ca v.

Definition set_status (v : string) (b : Broadcast.t) : Broadcast.t :=
  let 'Broadcast.mk i e t h _ s := b in Broadcast.mk i e t h v s.

Definition set_sentAt (v : option Date) (b : Broadcast.t) : Broadcast.t :=
  let 'Broadcast.mk i e t h st _ := b in Broadcast.mk i e t h st v.

Definition with_mobileMessage (db : Db) (ms : list MobileMessage.t) : Db :=
  mkDb (attendee db) (invite db) ms (broadcast db) (clock db).

Definition with_broadcast (db : Db) (bs : list Broadcast.t) : Db :=
  mkDb (attendee db) (invite db) (mobileMessage db) bs (clock db).

(** [orderBy: { createdAt: 'desc' }] *)
Definition createdAtDesc (m1 m2 : MobileMessage.t) : Prop :=
  MobileMessage.createdAt m2 ≤ MobileMessage.createdAt m1.

Global Instance createdAtDesc_dec : RelDecision createdAtDesc.
Proof. intros m1 m2. unfold createdAtDesc. apply _. Defined.

(** Rewrites the first row that satisfies a unique [where]. *)
Fixpoint updateUnique {A} (P : A → Prop) `{∀ x, Decision (P x)}
    (f : A → A) (rows : list A) : list A :=
  match rows with
  | [] => []
  | r :: rows' =>
      if decide (P r) then f r :: rows' else r :: updateUnique P f rows'
  end.

Section Prisma.
Variable schema : Schema.

(** [findMany({ where })]: the matching rows, in table order. *)
Definition findMany {A} (table : Db → list A) (P : A → Prop)
    `{∀ x, Decision (P x)} : M (list A) :=
  λ db, (Returned (filter P (table db)), db).

(** [findFirst({ where })], and [findUnique]: the first matching row or null. *)
Definition findFirst {A} (table : Db → list A) (P : A → Prop)
    `{∀ x, Decision (P x)} : M (option A) :=
  λ db, (Returned (head (filter P (table db))), db).

(** [mobileMessage.findMany({ where, orderBy: { createdAt: 'desc' } })] *)
Definition findManyNewestFirst (P : MobileMessage.t → Prop)
    `{∀ x, Decision (P x)} : M (list MobileMessage.t) :=
  λ db, (Returned (merge_sort createdAtDesc (filter P (mobileMessage db))), db).

(** [mobileMessage.count({ where })] *)
Definition count (P : MobileMessage.t → Prop) `{∀ x, Decision (P x)} : M nat :=
  λ db, (Returned (length (filter P (mobileMessage db))), db).

(** The row [mobileMessage.create] inserts: the given [data], the [id] and
    the timestamps from their defaults, [deliveryStatus] from its default
    when [data] has none. *)
Definition newRow (d : MobileMessageCreateInput.t) (db : Db) : MobileMessage.t :=
  {| MobileMessage.id := cuid schema (mobileMessage db);
     MobileMessage.eventId := MobileMessageCreateInput.eventId d;
     MobileMessage.attendeeId := MobileMessageCreateInput.attendeeId d;
     MobileMessage.inviteId := MobileMessageCreateInput.inviteId d;
     MobileMessage.title := MobileMessageCreateInput.title d;
     MobileMessage.body := MobileMessageCreateInput.body d;
     MobileMessage.attachments := MobileMessageCreateInput.attachments d;
     MobileMessage.status := MobileMessageCreateInput.status d;
     MobileMessage.deliveryStatus :=
       default (defaultDeliveryStatus schema)
               (MobileMessageCreateInput.deliveryStatus d);
     MobileMessage.unread := MobileMessageCreateInput.unread d;
     MobileMessage.deliveredAt := MobileMessageCreateInput.deliveredAt d;
     MobileMessage.createdAt := clock db;
     MobileMessage.updatedAt := clock db |}.

(** [mobileMessage.create({ data })]: the row is appended to the table. *)
Definition create (d : MobileMessageCreateInput.t) : M MobileMessage.t :=
  λ db, let m := newRow d db in
        (Returned m, with_mobileMessage db (mobileMessage db ++ [m])).

(** What an update writes to a row: the [data], and the refreshed
    [updatedAt] when the schema asks for it. *)
Definition applyData (data : MobileMessage.t → MobileMessage.t) (now : Date)
    (m : MobileMessage.t) : MobileMessage.t :=
  if refreshesUpdatedAt schema then set_updatedAt now (data m) else data m.

(** [mobileMessage.updateMany({ where, data })]: every matching row is
    rewritten in one statement; the result is the number of rows. *)
Definition updateMany (P : MobileMessage.t → Prop) `{∀ x, Decision (P x)}
    (data : MobileMessage.t → MobileMessage.t) : M nat :=
  λ db,
    (Returned (length (filter P (mobileMessage db))),
     with_mobileMessage db
       ((λ m, if decide (P m) then applyData data (clock db) m else m)
          <$> mobileMessage db)).

(** [mobileMessage.update({ where: { id }, data })]: error P2025 when no row
    has the id. *)
Definition update (id : string) (data : MobileMessage.t → MobileMessage.t)
    : M MobileMessage.t :=
  λ db,
    match head (filter (λ m, MobileMessage.id m = id) (mobileMessage db)) with
    | Some m =>
        (Returned (applyData data (clock db) m),
         with_mobileMessage db
           (updateUnique (λ m, MobileMessage.id m = id)
              (applyData data (clock db)) (mobileMessage db)))
    | None => (Thrown (PrismaError "P2025"), db)
    end.

(** [broadcast.update({ where: { id }, data })] *)
Definition updateBroadcast (id : string) (data : Broadcast.t → Broadcast.t)
    : M Broadcast.t :=
  λ db,
    match head (filter (λ b, Broadcast.id b = id) (broadcast db)) with
    | Some b =>
        (Returned (data b),
         with_broadcast db
           (updateUnique (λ b, Broadcast.id b = id) data (broadcast db)))
    | None => (Thrown (PrismaError "P2025"), db)
    end.

End Prisma.

(** ** MobileService (mobile.service.ts) *)

Module MobileMessageDto.
Record t := mk {
  id : string;
  eventId : string;
  attendeeId : option string;
  title : string;
  body : string;
  attachments : Json;
  unread : bool;
  createdAt : Date;
  updatedAt : Date;
}.
End MobileMessageDto.

Module MobileMessagesResponseDto.
Record t := mk {
  data : list MobileMessageDto.t;
  total : nat;
  page : nat;
  pageSize : nat;
  totalPages : nat;
}.
End MobileMessagesResponseDto.

Definition mapMessageToDto (message : MobileMessage.t) : MobileMessageDto.t :=
  {| MobileMessageDto.id := MobileMessage.id message;
     MobileMessageDto.eventId := MobileMessage.eventId message;
     MobileMessageDto.attendeeId := MobileMessage.attendeeId message;
     MobileMessageDto.title := MobileMessage.title message;
     MobileMessageDto.body := MobileMessage.body message;
     MobileMessageDto.attachments := MobileMessage.attachments message;
     MobileMessageDto.unread := MobileMessage.unread message;
     MobileMessageDto.createdAt := MobileMessage.createdAt message;
     MobileMessageDto.updatedAt := MobileMessage.updatedAt message |}.

(** Truthiness of the optional parameter [attendeeId?: string]. *)
Definition truthyId (attendeeId : option string) : bool :=
  match attendeeId with
  | Some a => negb (bool_decide (a = ""))
  | None => false
  end.

(** [{ eventId, deliveryStatus: 'delivered',
       ...(attendeeId ? { attendeeId } : {}) }] *)
Definition whereClause (eventId : string) (attendeeId : option string)
    (m : MobileMessage.t) : Prop :=
  MobileMessage.eventId m = eventId
  ∧ MobileMessage.deliveryStatus m = delivered
  ∧ (if truthyId attendeeId then MobileMessage.attendeeId m = attendeeId
     else True).

Global Instance whereClause_dec eventId attendeeId m :
  Decision (whereClause eventId attendeeId m).
Proof. unfold whereClause. destruct (truthyId attendeeId); apply _. Defined.

Section MobileService.
Variable schema : Schema.

Definition getMobileMessages (eventId : string) (attendeeId : option string)
    : M MobileMessagesResponseDto.t :=
  messages ← findManyNewestFirst (whereClause eventId attendeeId);
  total ← count (whereClause eventId attendeeId);
  mret {| MobileMessagesResponseDto.data := mapMessageToDto <$> messages;
          MobileMessagesResponseDto.total := total;
          MobileMessagesResponseDto.page := 1;
          MobileMessagesResponseDto.pageSize := length messages;
          MobileMessagesResponseDto.totalPages := 1 |}.

Definition getMobileMessage (eventId messageId : string) : M MobileMessageDto.t :=
  message ← findFirst mobileMessage
    (λ m, MobileMessage.id m = messageId ∧ MobileMessage.eventId m = eventId);
  match message with
  | None => throw (NotFoundException "Message not found")
  | Some message => mret (mapMessageToDto message)
  end.

(** The route's [eventId] is not a parameter: the controller passes the
    message id alone. *)
Definition acknowledgeMessage (messageId : string) : M bool :=
  message ← findFirst mobileMessage (λ m, MobileMessage.id m = messageId);
  match message with
  | None => throw (NotFoundException "Message not found")
  | Some _ =>
      _ ← update schema messageId (set_unread false);
      mret true
  end.

End MobileService.

(** ** MobileController (mobile.controller.ts) *)

(** The handlers of [MobileController] of the two routes by message id; the
    acknowledge handler binds the [id] parameter of its route only. *)
Module MobileController.
Definition getMobileMessage (eventId id : string) : M MobileMessageDto.t :=
  getMobileMessage eventId id.

Definition acknowledgeMessage (schema : Schema) (eventId id : string) : M bool :=
  acknowledgeMessage schema id.
End MobileController.

(** ** MessagesService (messages.service.ts) *)

(** The request body of [createMessage] ([data: any]). *)
Module MessageData.
Record t := mk {
  title : string;
  body : string;
  attachments : option Json;
  status : Field;
  audience : Field;
  attendeeId : Field;
  inviteId : Field;
}.
End MessageData.

(** [x === 'literal'] *)
Definition strictEq (f : Field) (s : string) : bool :=
  match f with
  | Str s' => bool_decide (s' = s)
  | _ => false
  end.

(** [x === undefined] *)
Definition isUndefined (f : Field) : bool :=
  match f with
  | Undefined => true
  | _ => false
  end.

(** [{ inviteId, deliveryStatus: 'queued' }], the [where] of both queries of
    [deliverQueuedMessages]. *)
Definition pending (inviteId : string) (m : MobileMessage.t) : Prop :=
  MobileMessage.inviteId m = Some inviteId
  ∧ MobileMessage.deliveryStatus m = queued.

Global Instance pending_dec inviteId m : Decision (pending inviteId m).
Proof. unfold pending. apply _. Defined.

Section MessagesService.
Variable schema : Schema.

Definition getMessages (eventId : string) : M (list MobileMessage.t) :=
  findManyNewestFirst (λ m, MobileMessage.eventId m = eventId).

Definition getMessage (eventId id : string) : M MobileMessage.t :=
  message ← findFirst mobileMessage
    (λ m, MobileMessage.id m = id ∧ MobileMessage.eventId m = eventId);
  match message with
  | None => throw (NotFoundException "Message with ID not found")
  | Some message => mret message
  end.

Definition createDirectMessage (eventId : string) (data : MessageData.t)
    : M MobileMessage.t :=
  now ← newDate;
  create schema
    {| MobileMessageCreateInput.eventId := eventId;
       MobileMessageCreateInput.attendeeId := toColumn (MessageData.attendeeId data);
       MobileMessageCreateInput.inviteId := None;
       MobileMessageCreateInput.title := MessageData.title data;
       MobileMessageCreateInput.body := MessageData.body data;
       MobileMessageCreateInput.attachments := orEmptyObject (MessageData.attachments data);
       MobileMessageCreateInput.status := orElse (MessageData.status data) "sent";
       MobileMessageCreateInput.deliveryStatus := Some delivered;
       MobileMessageCreateInput.unread := true;
       MobileMessageCreateInput.deliveredAt := Some now |}.

Definition createQueuedMessage (eventId : string) (data : MessageData.t)
    : M MobileMessage.t :=
  create schema
    {| MobileMessageCreateInput.eventId := eventId;
       MobileMessageCreateInput.attendeeId := None;
       MobileMessageCreateInput.inviteId := toColumn (MessageData.inviteId data);
       MobileMessageCreateInput.title := MessageData.title data;
       MobileMessageCreateInput.body := MessageData.body data;
       MobileMessageCreateInput.attachments := orEmptyObject (MessageData.attachments data);
       MobileMessageCreateInput.status := orElse (MessageData.status data) "sent";
       MobileMessageCreateInput.deliveryStatus := Some queued;
       MobileMessageCreateInput.unread := true;
       MobileMessageCreateInput.deliveredAt := None |}.

(** The body of the [attendees.map] callback of the broadcast path. *)
Definition createForAttendee (eventId : string) (data : MessageData.t)
    (attendee : Attendee.t) : M MobileMessage.t :=
  now ← newDate;
  create schema
    {| MobileMessageCreateInput.eventId := eventId;
       MobileMessageCreateInput.attendeeId := Some (Attendee.id attendee);
       MobileMessageCreateInput.inviteId := None;
       MobileMessageCreateInput.title := MessageData.title data;
       MobileMessageCreateInput.body := MessageData.body data;
       MobileMessageCreateInput.attachments := orEmptyObject (MessageData.attachments data);
       MobileMessageCreateInput.status := orElse (MessageData.status data) "sent";
       MobileMessageCreateInput.deliveryStatus := Some delivered;
       MobileMessageCreateInput.unread := true;
       MobileMessageCreateInput.deliveredAt := Some now |}.

(** The body of the [allInvites.map] callbacks. *)
Definition createForInvite (eventId : string) (data : MessageData.t)
    (invite : Invite.t) : M MobileMessage.t :=
  create schema
    {| MobileMessageCreateInput.eventId := eventId;
       MobileMessageCreateInput.attendeeId := None;
       MobileMessageCreateInput.inviteId := Some (Invite.id invite);
       MobileMessageCreateInput.title := MessageData.title data;
       MobileMessageCreateInput.body := MessageData.body data;
       MobileMessageCreateInput.attachments := orEmptyObject (MessageData.attachments data);
       MobileMessageCreateInput.status := orElse (MessageData.status data) "sent";
       MobileMessageCreateInput.deliveryStatus := Some queued;
       MobileMessageCreateInput.unread := true;
       MobileMessageCreateInput.deliveredAt := None |}.

(** The [audience === 'accepted'] block: the attendees of the event kept as
    delivery targets. *)
Definition acceptedAttendees (eventId : string) (allAttendees : list Attendee.t)
    : M (list Attendee.t) :=
  let attendeeEmails := Attendee.email <$> allAttendees in
  acceptedInvites ← findMany invite
    (λ i, Invite.eventId i = eventId
          ∧ Invite.email i ∈ attendeeEmails
          ∧ Invite.status i = "accepted");
  attendeesWithAcceptedAt ← findMany attendee
    (λ a, Attendee.eventId a = eventId
          ∧ Attendee.email a ∈ attendeeEmails
          ∧ Attendee.acceptedAt a ≠ None);
  let acceptedInviteEmails : gset string :=
    list_to_set (Invite.email <$> acceptedInvites) in
  let acceptedAtEmails : gset string :=
    list_to_set (Attendee.email <$> attendeesWithAcceptedAt) in
  let allAcceptedEmails := acceptedInviteEmails ∪ acceptedAtEmails in
  mret (filter (λ a, Attendee.email a ∈ allAcceptedEmails) allAttendees).

(** The tail of the broadcast path, from "Create individual MobileMessage
    records for each attendee" to the representative that is returned. *)
Definition fanOut (eventId : string) (data : MessageData.t)
    (attendees : list Attendee.t) : M (option MobileMessage.t) :=
  attendeeMessages ←
    (if bool_decide (0 < length attendees)%nat
     then promiseAllMap (createForAttendee eventId data) attendees
     else mret []);
  allInvites ← findMany invite (λ i, Invite.eventId i = eventId);
  inviteMessages ←
    (if bool_decide (0 < length allInvites)%nat
     then promiseAllMap (createForInvite eventId data) allInvites
     else mret []);
  mret (match head attendeeMessages with
        | Some m => Some m
        | None => head inviteMessages
        end).

Definition createMessage (eventId : string) (data : MessageData.t)
    : M (option MobileMessage.t) :=
  if truthy (MessageData.attendeeId data) then
    m ← createDirectMessage eventId data; mret (Some m)
  else if truthy (MessageData.inviteId data) then
    m ← createQueuedMessage eventId data; mret (Some m)
  else if negb (truthy (MessageData.attendeeId data))
          && (strictEq (MessageData.status data) "sent"
              || isUndefined (MessageData.status data)) then
    allAttendees ← findMany attendee (λ a, Attendee.eventId a = eventId);
    if strictEq (MessageData.audience data) "invited"
       || strictEq (MessageData.audience data) "accepted" then
      if strictEq (MessageData.audience data) "accepted" then
        attendees ← acceptedAttendees eventId allAttendees;
        fanOut eventId data attendees
      else if strictEq (MessageData.audience data) "invited" then
        allInvites ← findMany invite (λ i, Invite.eventId i = eventId);
        inviteMessages ← promiseAllMap (createForInvite eventId data) allInvites;
        mret (head inviteMessages)
      else fanOut eventId data allAttendees
    else fanOut eventId data allAttendees
  else
    now ← newDate;
    m ← create schema
      {| MobileMessageCreateInput.eventId := eventId;
         MobileMessageCreateInput.attendeeId := toColumn (MessageData.attendeeId data);
         MobileMessageCreateInput.inviteId := None;
         MobileMessageCreateInput.title := MessageData.title data;
         MobileMessageCreateInput.body := MessageData.body data;
         MobileMessageCreateInput.attachments := orEmptyObject (MessageData.attachments data);
         MobileMessageCreateInput.status := orElse (MessageData.status data) "sent";
         MobileMessageCreateInput.deliveryStatus := Some delivered;
         MobileMessageCreateInput.unread := truthy (MessageData.attendeeId data);
         MobileMessageCreateInput.deliveredAt := Some now |};
    mret (Some m).

Definition deliverQueuedMessages (inviteId attendeeId : string) : M nat :=
  queuedMessages ← findMany mobileMessage (pending inviteId);
  if bool_decide (length queuedMessages = 0%nat) then mret 0%nat
  else
    now ← newDate;
    updateMany schema (pending inviteId)
      (λ m, set_deliveredAt (Some now)
              (set_deliveryStatus delivered
                 (set_attendeeId (Some attendeeId) m))).

(** [{ title, body, attachments }] taken from the message or the broadcast. *)
Record MessageContent := mkContent {
  contentTitle : string;
  contentBody : string;
  contentAttachments : Json;
}.

Definition sendMessage (eventId messageId : string) : M (option MobileMessage.t) :=
  message ← findFirst mobileMessage
    (λ m, MobileMessage.id m = messageId ∧ MobileMessage.eventId m = eventId);
  messageData ←
    match message with
    | Some message =>
        mret {| contentTitle := MobileMessage.title message;
                contentBody := MobileMessage.body message;
                contentAttachments :=
                  orEmptyObject (Some (MobileMessage.attachments message)) |}
    | None =>
        broadcast ← findFirst broadcast
          (λ b, Broadcast.id b = messageId ∧ Broadcast.eventId b = eventId);
        match broadcast with
        | None => throw (NotFoundException "Message with ID not found")
        | Some broadcast =>
            now ← newDate;
            _ ← updateBroadcast messageId
                  (λ b, set_sentAt (Some now) (set_status "sent" b));
            mret {| contentTitle := Broadcast.title broadcast;
                    contentBody := Broadcast.bodyHtml broadcast;
                    contentAttachments := JObj [] |}
        end
    end;
  attendees ← findMany attendee (λ a, Attendee.eventId a = eventId);
  mobileMessages ← promiseAllMap
    (λ attendee,
       create schema
         {| MobileMessageCreateInput.eventId := eventId;
            MobileMessageCreateInput.attendeeId := Some (Attendee.id attendee);
            MobileMessageCreateInput.inviteId := None;
            MobileMessageCreateInput.title := contentTitle messageData;
            MobileMessageCreateInput.body := contentBody messageData;
            MobileMessageCreateInput.attachments := contentAttachments messageData;
            MobileMessageCreateInput.status := "sent";
            MobileMessageCreateInput.deliveryStatus := None;
            MobileMessageCreateInput.unread := true;
            MobileMessageCreateInput.deliveredAt := None |})
    attendees;
  mret (match head mobileMessages with
        | Some m => Some m
        | None => message
        end).

End MessagesService.

(** ** MessagesService: writes by id *)

(** [try { m } catch (error) { h error }] *)
Definition tryCatch {A} (m : M A) (h : Exn → M A) : M A := λ db,
  match m db with
  | (Thrown e, db') => h e db'
  | r => r
  end.

(** A well-formed [data] of [prisma.mobileMessage.update]: for each column,
    the value to write, if any. *)
Module MobileMessageUpdateInput.
Record t := mk {
  id : option string;
  eventId : option string;
  attendeeId : option (option string);
  inviteId : option (option string);
  title : option string;
  body : option string;
  attachments : option Json;
  status : option string;
  deliveryStatus : option DeliveryStatus;
  unread : option bool;
  deliveredAt : option (option Date);
  createdAt : option Date;
  updatedAt : option Date;
}.
End MobileMessageUpdateInput.



(** Removes the first row that satisfies a unique [where]. *)
Fixpoint deleteUnique {A} (P : A → Prop) `{∀ x, Decision (P x)}
    (rows : list A) : list A :=
  match rows with
  | [] => []
  | r :: rows' => if decide (P r) then rows' else r :: deleteUnique P rows'
  end.

Section MessagesServiceById.
Variable schema : Schema.


(** [mobileMessage.delete({ where: { id } })] *)
Definition delete (id : string) : M MobileMessage.t :=
  λ db,
    match head (filter (λ m, MobileMessage.id m = id) (mobileMessage db)) with
    | Some m =>
        (Returned m,
         with_mobileMessage db
           (deleteUnique (λ m, MobileMessage.id m = id) (mobileMessage db)))
    | None => (Thrown (PrismaError "P2025"), db)
    end.

(** [if (error.code === 'P2025') throw new NotFoundException(...); throw error] *)
Definition notFoundOnP2025 {A} (error : Exn) : M A :=
  match error with
  | PrismaError code =>
      if bool_decide (code = "P2025")
      then throw (NotFoundException "Message with ID not found")
      else throw error
  | _ => throw error
  end.


Definition deleteMessage (eventId id : string) : M unit :=
  tryCatch (_ ← delete id; mret ()) notFoundOnP2025.

End MessagesServiceById.

(** ** MobileService: the attendee of an email *)

Definition with_attendee (db : Db) (rows : list Attendee.t) : Db :=
  mkDb rows (invite db) (mobileMessage db) (broadcast db) (clock db).

(** What [getAttendeeByEmail] takes from outside the repository:
    [String.prototype.trim], the comparison Prisma makes for
    [{ mode: 'insensitive', equals }], and the generator behind the [id]
    default of [Attendee]. *)
Record Lookup := mkLookup {
  trim : string → string;
  equalsInsensitive : string → string → bool;
  attendeeCuid : list Attendee.t → string;
}.

Section AttendeeByEmail.
Variable lookup : Lookup.

(** [attendee.create({ data })], on the columns of the model: the row is in
    the requested event, has the given email and no [acceptedAt]. *)
Definition createAttendee (eventId email : string) : M Attendee.t :=
  λ db,
    let a := {| Attendee.id := attendeeCuid lookup (attendee db);
                Attendee.eventId := eventId;
                Attendee.email := email;
                Attendee.acceptedAt := None |} in
    (Returned a, with_attendee db (attendee db ++ [a])).

(** The four invite lookups, in the order they are tried: the event by
    exact email, the event case-insensitively, any event by exact email, any
    event case-insensitively. *)
Definition findInvite (eventId emailStr : string) : M (option Invite.t) :=
  found ← findFirst invite
    (λ i, Invite.email i = emailStr ∧ Invite.eventId i = eventId);
  found ←
    match found with
    | Some i => mret (Some i)
    | None =>
        invites ← findMany invite
          (λ i, Invite.eventId i = eventId
                ∧ equalsInsensitive lookup (Invite.email i) emailStr = true);
        mret (head invites)
    end;
  match found with
  | Some i => mret (Some i)
  | None =>
      found ← findFirst invite (λ i, Invite.email i = emailStr);
      match found with
      | Some i => mret (Some i)
      | None =>
          invites ← findMany invite
            (λ i, equalsInsensitive lookup (Invite.email i) emailStr = true);
          mret (head invites)
      end
  end.

Definition getAttendeeByEmail (eventId email : string) : M Attendee.t :=
  let emailStr := trim lookup email in
  found ← findFirst attendee
    (λ a, Attendee.email a = emailStr ∧ Attendee.eventId a = eventId);
  found ←
    match found with
    | Some a => mret (Some a)
    | None =>
        attendees ← findMany attendee
          (λ a, Attendee.eventId a = eventId
                ∧ equalsInsensitive lookup (Attendee.email a) emailStr = true);
        mret (head attendees)
    end;
  match found with
  | Some a => mret a
  | None =>
      foundInvite ← findInvite eventId emailStr;
      match foundInvite with
      | None =>
          throw (NotFoundException
                   (String.append "No invite found for email: "
                      (String.append email
                         ". Please ensure you have been invited to an event.")))
      | Some _ =>
          existingAttendeeInRequestedEvent ← findFirst attendee
            (λ a, Attendee.email a = emailStr ∧ Attendee.eventId a = eventId);
          match existingAttendeeInRequestedEvent with
          | Some a => mret a
          | None => createAttendee eventId emailStr
          end
      end
  end.

End AttendeeByEmail.

(** ** MobileController: the message list of an email *)

(** How a handler ends: with its result, with the BadRequest it throws
    itself, or with the exception of the service. *)
Inductive Response (A : Type) :=
  | Ok (a : A)
  | BadRequestException (message : string)
  | Failed (e : Exn).
Arguments Ok {A} a.
Arguments BadRequestException {A} message.
Arguments Failed {A} e.

Module MobileMessagesRoute.
Definition getMobileMessages (lookup : Lookup) (eventId : string)
    (email : option string) (db : Db)
    : Response MobileMessagesResponseDto.t * Db :=
  match email with
  | Some e =>
      if bool_decide (e = "")
      then (BadRequestException "Email parameter is required", db)
      else
        match getAttendeeByEmail lookup eventId e db with
        | (Thrown err, db') => (Failed err, db')
        | (Returned a, db') =>
            match getMobileMessages eventId (Some (Attendee.id a)) db' with
            | (Thrown err, db'') => (Failed err, db'')
            | (Returned r, db'') => (Ok r, db'')
            end
        end
  | None => (BadRequestException "Email parameter is required", db)
  end.
End MobileMessagesRoute.

(** * Vocabulary of the properties *)

(** The messages a recipient-facing listing of [eventId] shows: delivered
    messages of the event, of the given attendee when one is given (a
    non-empty id). *)
Definition listed (eventId : string) (attendeeId : option string)
    (m : MobileMessage.t) : Prop :=
  MobileMessage.eventId m = eventId
  ∧ MobileMessage.deliveryStatus m = delivered
  ∧ match attendeeId with
    | Some a => a = "" ∨ MobileMessage.attendeeId m = Some a
    | None => True
    end.

Global Instance listed_dec eventId attendeeId m :
  Decision (listed eventId attendeeId m).
Proof. unfold listed. destruct attendeeId; apply _. Defined.

(** The primary key of the message table. *)
Definition uniqueIds (db : Db) : Prop :=
  NoDup (MobileMessage.id <$> mobileMessage db).

(** What acknowledging writes to a row: [unread] becomes false, every other
    column the services read stays, and [updatedAt] is the client's. *)
Definition acknowledgedFrom (schema : Schema) (now : Date)
    (m m' : MobileMessage.t) : Prop :=
  MobileMessage.unread m' = false
  ∧ MobileMessage.id m' = MobileMessage.id m
  ∧ MobileMessage.eventId m' = MobileMessage.eventId m
  ∧ MobileMessage.attendeeId m' = MobileMessage.attendeeId m
  ∧ MobileMessage.inviteId m' = MobileMessage.inviteId m
  ∧ MobileMessage.title m' = MobileMessage.title m
  ∧ MobileMessage.body m' = MobileMessage.body m
  ∧ MobileMessage.attachments m' = MobileMessage.attachments m
  ∧ MobileMessage.status m' = MobileMessage.status m
  ∧ MobileMessage.deliveryStatus m' = MobileMessage.deliveryStatus m
  ∧ MobileMessage.deliveredAt m' = MobileMessage.deliveredAt m
  ∧ MobileMessage.createdAt m' = MobileMessage.createdAt m
  ∧ MobileMessage.updatedAt m' =
      (if refreshesUpdatedAt schema then now else MobileMessage.updatedAt m).

(** What promotion writes to a row. *)
Definition promotedFrom (schema : Schema) (attendeeId : string) (now : Date)
    (m m' : MobileMessage.t) : Prop :=
  MobileMessage.attendeeId m' = Some attendeeId
  ∧ MobileMessage.deliveryStatus m' = delivered
  ∧ MobileMessage.deliveredAt m' = Some now
  ∧ MobileMessage.id m' = MobileMessage.id m
  ∧ MobileMessage.eventId m' = MobileMessage.eventId m
  ∧ MobileMessage.inviteId m' = MobileMessage.inviteId m
  ∧ MobileMessage.title m' = MobileMessage.title m
  ∧ MobileMessage.body m' = MobileMessage.body m
  ∧ MobileMessage.attachments m' = MobileMessage.attachments m
  ∧ MobileMessage.status m' = MobileMessage.status m
  ∧ MobileMessage.unread m' = MobileMessage.unread m
  ∧ MobileMessage.createdAt m' = MobileMessage.createdAt m
  ∧ MobileMessage.updatedAt m' =
      (if refreshesUpdatedAt schema then now else MobileMessage.updatedAt m).

(** The [data] of the [updateMany] of [deliverQueuedMessages]. *)
Definition promote (schema : Schema) (attendeeId : string) (now : Date)
    (m : MobileMessage.t) : MobileMessage.t :=
  applyData schema
    (λ m, set_deliveredAt (Some now)
            (set_deliveryStatus delivered (set_attendeeId (Some attendeeId) m)))
    now m.

(** An attendee's email is unique within its event. *)
Definition uniqueEmails (db : Db) : Prop :=
  ∀ a1 a2, a1 ∈ attendee db → a2 ∈ attendee db →
    Attendee.eventId a1 = Attendee.eventId a2 →
    Attendee.email a1 = Attendee.email a2 → a1 = a2.

(** Some invite of the event with this email has status 'accepted'. *)
Definition hasAcceptedInvite (db : Db) (eventId email : string) : Prop :=
  ∃ i, i ∈ invite db ∧ Invite.eventId i = eventId
       ∧ Invite.email i = email ∧ Invite.status i = "accepted".

(** The attendees of the event, as the broadcast path reads them. *)
Definition attendeesOf (db : Db) (eventId : string) : list Attendee.t :=
  filter (λ a, Attendee.eventId a = eventId) (attendee db).

(** The attendees the 'accepted' block keeps, on a given database. *)
Definition acceptedTargets (db : Db) (eventId : string) : list Attendee.t :=
  match (acceptedAttendees eventId (attendeesOf db eventId) db).1 with
  | Returned targets => targets
  | Thrown _ => []
  end.

(** A row created for an attendee: delivered at once. *)
Definition deliveredTo (eventId : string) (data : MessageData.t) (now : Date)
    (a : Attendee.t) (m : MobileMessage.t) : Prop :=
  MobileMessage.eventId m = eventId
  ∧ MobileMessage.attendeeId m = Some (Attendee.id a)
  ∧ MobileMessage.inviteId m = None
  ∧ MobileMessage.title m = MessageData.title data
  ∧ MobileMessage.body m = MessageData.body data
  ∧ MobileMessage.deliveryStatus m = delivered
  ∧ MobileMessage.deliveredAt m = Some now
  ∧ MobileMessage.unread m = true.

(** A row created for an invite: queued until the invite is accepted. *)
Definition queuedFor (eventId : string) (data : MessageData.t)
    (i : Invite.t) (m : MobileMessage.t) : Prop :=
  MobileMessage.eventId m = eventId
  ∧ MobileMessage.inviteId m = Some (Invite.id i)
  ∧ MobileMessage.attendeeId m = None
  ∧ MobileMessage.title m = MessageData.title data
  ∧ MobileMessage.body m = MessageData.body data
  ∧ MobileMessage.deliveryStatus m = queued
  ∧ MobileMessage.deliveredAt m = None
  ∧ MobileMessage.unread m = true.

(** The invites of the event, as the broadcast path reads them. *)
Definition invitesOf (db : Db) (eventId : string) : list Invite.t :=
  filter (λ i, Invite.eventId i = eventId) (invite db).

(** The rows a computation appended to the message table. *)
Definition createdBy {A} (m : M A) (db : Db) : list MobileMessage.t :=
  drop (length (mobileMessage db)) (mobileMessage (m db).2).

(** ** Concrete databases *)

Module Demo.

Definition schema : Schema :=
  {| cuid := λ rows, String.append "msg-" (pretty (length rows));
     defaultDeliveryStatus := delivered;
     refreshesUpdatedAt := true |}.

Definition alice : Attendee.t :=
  {| Attendee.id := "a1"; Attendee.eventId := "E1";
     Attendee.email := "alice@example.com"; Attendee.acceptedAt := Some 5 |}.

Definition bobInvite : Invite.t :=
  {| Invite.id := "i1"; Invite.eventId := "E1";
     Invite.email := "bob@example.com"; Invite.status := "pending" |}.

Definition db : Db :=
  {| attendee := [alice]; invite := [bobInvite]; mobileMessage := [];
     broadcast := []; clock := 100 |}.

(** A broadcast to the accepted audience. *)
Definition toAccepted : MessageData.t :=
  {| MessageData.title := "Welcome"; MessageData.body := "See you there";
     MessageData.attachments := None; MessageData.status := Undefined;
     MessageData.audience := Str "accepted";
     MessageData.attendeeId := Undefined; MessageData.inviteId := Undefined |}.

(** A request naming both an attendee and an invite. *)
Definition toBoth : MessageData.t :=
  {| MessageData.title := "Welcome"; MessageData.body := "See you there";
     MessageData.attachments := None; MessageData.status := Undefined;
     MessageData.audience := Undefined;
     MessageData.attendeeId := Str "a1"; MessageData.inviteId := Str "i1" |}.

(** A draft kept by the fallback path of [createMessage], before it is
    sent to the event. *)
Definition draft : MobileMessage.t :=
  {| MobileMessage.id := "msg-0"; MobileMessage.eventId := "E1";
     MobileMessage.attendeeId := None; MobileMessage.inviteId := None;
     MobileMessage.title := "Agenda"; MobileMessage.body := "Doors open at 9";
     MobileMessage.attachments := JObj []; MobileMessage.status := "draft";
     MobileMessage.deliveryStatus := delivered; MobileMessage.unread := false;
     MobileMessage.deliveredAt := Some 90; MobileMessage.createdAt := 90;
     MobileMessage.updatedAt := 90 |}.

Definition dbWithDraft : Db :=
  {| attendee := [alice]; invite := [bobInvite]; mobileMessage := [draft];
     broadcast := []; clock := 100 |}.

(** A message waiting for the pending invite. *)
Definition waiting : MobileMessage.t :=
  {| MobileMessage.id := "msg-7"; MobileMessage.eventId := "E1";
     MobileMessage.attendeeId := None; MobileMessage.inviteId := Some "i1";
     MobileMessage.title := "Welcome"; MobileMessage.body := "See you there";
     MobileMessage.attachments := JObj []; MobileMessage.status := "sent";
     MobileMessage.deliveryStatus := queued; MobileMessage.unread := true;
     MobileMessage.deliveredAt := None; MobileMessage.createdAt := 95;
     MobileMessage.updatedAt := 95 |}.

Definition dbWithWaiting : Db :=
  {| attendee := [alice]; invite := [bobInvite];
     mobileMessage := [draft; waiting]; broadcast := []; clock := 100 |}.

End Demo.

(** No row that a computation created is queued. *)
Definition queuesNothing {A} (m : M A) (db : Db) : Prop :=
  Forall (λ r, MobileMessage.deliveryStatus r ≠ queued) (createdBy m db).

(** The call is refused with an error and has written nothing. *)
Definition rejectedBeforeWrite {A} (m : M A) (db : Db) : Prop :=
  ∃ e, m db = (Thrown e, db).

(** A queued message carries an invite and no attendee; a delivered message
    carries its delivery time. *)
Definition deliveryInvariant (m : MobileMessage.t) : Prop :=
  (MobileMessage.deliveryStatus m = queued →
     MobileMessage.inviteId m ≠ None ∧ MobileMessage.attendeeId m = None)
  ∧ (MobileMessage.deliveryStatus m = delivered →
     MobileMessage.deliveredAt m ≠ None).

(** ** Further vocabulary and concrete data *)

(** The id generator never returns the id of a row of the table it is
    given. *)
Definition freshIds (schema : Schema) : Prop :=
  ∀ rows, cuid schema rows ∉ MobileMessage.id <$> rows.

(** The request is a broadcast: no recipient is named and the status is
    'sent' or absent. *)
Definition isBroadcast (data : MessageData.t) : Prop :=
  truthy (MessageData.attendeeId data) = false
  ∧ truthy (MessageData.inviteId data) = false
  ∧ (MessageData.status data = Str "sent" ∨ MessageData.status data = Undefined).

(** The rows [ms] were inserted one after the other into the table [rows],
    each with the id the generator gave for the table it was inserted in. *)
Fixpoint generated (schema : Schema) (rows ms : list MobileMessage.t) : Prop :=
  match ms with
  | [] => True
  | m :: ms' =>
      MobileMessage.id m = cuid schema rows ∧ generated schema (rows ++ [m]) ms'
  end.

(** The attendee is one of the event whose email is the given one, as it is
    or case-insensitively. *)
Definition attendeeMatches (lookup : Lookup) (eventId emailStr : string)
    (a : Attendee.t) : Prop :=
  Attendee.eventId a = eventId
  ∧ (Attendee.email a = emailStr
     ∨ equalsInsensitive lookup (Attendee.email a) emailStr = true).

(** The invite, of whatever event, has the given email, as it is or
    case-insensitively. *)
Definition inviteMatches (lookup : Lookup) (emailStr : string) (i : Invite.t)
    : Prop :=
  Invite.email i = emailStr
  ∨ equalsInsensitive lookup (Invite.email i) emailStr = true.

Module Fixtures.

(** An id longer than every id of the table. *)
Definition longerId (rows : list MobileMessage.t) : string :=
  String.append "c"
    (foldr (λ m acc, String.append (MobileMessage.id m) acc) "" rows).

Definition schema : Schema :=
  {| cuid := longerId; defaultDeliveryStatus := delivered;
     refreshesUpdatedAt := true |}.

(** Emails without surrounding blanks, compared as they are. *)
Definition lookup : Lookup :=
  {| trim := λ s, s;
     equalsInsensitive := String.eqb;
     attendeeCuid := λ rows, String.append "att-" (pretty (length rows)) |}.

Definition message (title body : string) (status audience attendeeId inviteId : Field)
    : MessageData.t :=
  {| MessageData.title := title; MessageData.body := body;
     MessageData.attachments := None; MessageData.status := status;
     MessageData.audience := audience;
     MessageData.attendeeId := attendeeId; MessageData.inviteId := inviteId |}.

Definition toInvited : MessageData.t :=
  message "Save the date" "Invitations are out" (Str "sent") (Str "invited")
    Undefined Undefined.

Definition toAll : MessageData.t :=
  message "Welcome" "See you there" Undefined Undefined Undefined Undefined.

Definition toInvite : MessageData.t :=
  message "Reminder" "Please answer" Undefined Undefined Undefined (Str "i1").

Definition toAttendee : MessageData.t :=
  message "Hello" "Your badge is ready" Undefined Undefined (Str "a1") Undefined.

Definition asDraft : MessageData.t :=
  message "Agenda" "Doors open at 9" (Str "draft") Undefined Undefined Undefined.

Definition carolInvite : Invite.t :=
  {| Invite.id := "i9"; Invite.eventId := "E2";
     Invite.email := "carol@example.com"; Invite.status := "pending" |}.

(** Carol is invited to E2 only; nobody attends E1. *)
Definition dbCarol : Db :=
  {| attendee := []; invite := [carolInvite]; mobileMessage := [];
     broadcast := []; clock := 100 |}.

Definition launch : Broadcast.t :=
  {| Broadcast.id := "b1"; Broadcast.eventId := "E1";
     Broadcast.title := "Launch"; Broadcast.bodyHtml := "We are live";
     Broadcast.status := "draft"; Broadcast.sentAt := None |}.

Definition dbLaunch : Db :=
  {| attendee := [Demo.alice]; invite := [Demo.bobInvite]; mobileMessage := [];
     broadcast := [launch]; clock := 100 |}.

End Fixtures.

(** * Properties *)

(** ** Running monadic code *)

Ltac run :=
  unfold mbind, M_bind, mret, M_ret, throw, findMany, findFirst,
    findManyNewestFirst, count, newDate; simpl.

Lemma with_mobileMessage_same (db : Db) :
  with_mobileMessage db (mobileMessage db) = db.
Proof. by destruct db. Qed.

(** ** Ordering by creation time *)

Global Instance createdAtDesc_trans : Transitive createdAtDesc.
Proof. unfold createdAtDesc. intros x y z ? ?. lia. Qed.

Global Instance createdAtDesc_total : Total createdAtDesc.
Proof. unfold createdAtDesc. intros x y. lia. Qed.

Lemma findManyNewestFirst_spec (P : MobileMessage.t → Prop)
    `{∀ x, Decision (P x)} (db : Db) :
  ∃ msgs, findManyNewestFirst P db = (Returned msgs, db)
    ∧ msgs ≡ₚ filter P (mobileMessage db)
    ∧ StronglySorted createdAtDesc msgs.
Proof.
  eexists. split; [reflexivity|]. split.
  - apply merge_sort_Permutation.
  - apply (StronglySorted_merge_sort _).
Qed.

(** ** The recipient-facing listing *)

Lemma whereClause_listed eventId attendeeId m :
  whereClause eventId attendeeId m ↔ listed eventId attendeeId m.
Proof.
  unfold whereClause, listed, truthyId.
  destruct attendeeId as [a|]; [|tauto].
  case_bool_decide; simpl; tauto.
Qed.

(** C1. For every event and optional attendee filter, [getMobileMessages]
    succeeds without touching the database and returns the DTOs of exactly
    the delivered messages of the event (of the given attendee, when an
    attendee id is given), newest-created first; no message it returns is
    queued. *)
Theorem getMobileMessages_delivered_only
    (eventId : string) (attendeeId : option string) (db : Db) :
  ∃ msgs,
    getMobileMessages eventId attendeeId db =
      (Returned
         {| MobileMessagesResponseDto.data := mapMessageToDto <$> msgs;
            MobileMessagesResponseDto.total := length msgs;
            MobileMessagesResponseDto.page := 1;
            MobileMessagesResponseDto.pageSize := length msgs;
            MobileMessagesResponseDto.totalPages := 1 |}, db)
    ∧ msgs ≡ₚ filter (listed eventId attendeeId) (mobileMessage db)
    ∧ StronglySorted createdAtDesc msgs
    ∧ Forall (λ m, MobileMessage.deliveryStatus m ≠ queued) msgs.
Proof.
  destruct (findManyNewestFirst_spec (whereClause eventId attendeeId) db)
    as (msgs & Hrun & Hperm & Hsorted).
  assert (Hperm' : msgs ≡ₚ filter (listed eventId attendeeId) (mobileMessage db)).
  { rewrite Hperm. erewrite list_filter_iff; [done|].
    intros m. apply whereClause_listed. }
  exists msgs. split; [|split; [done|split; [done|]]].
  - unfold getMobileMessages. unfold mbind at 1, M_bind. rewrite Hrun.
    run. by rewrite (Permutation_length Hperm).
  - apply Forall_forall. intros m Hm. rewrite Hperm' in Hm.
    apply list_elem_of_filter in Hm as [(_ & Hd & _) _]. by rewrite Hd.
Qed.

(** The filter is applied when the id is truthy: the empty string filters
    nothing, like an absent id. *)
Lemma getMobileMessages_empty_attendeeId (eventId : string) (db : Db) :
  getMobileMessages eventId (Some "") db = getMobileMessages eventId None db.
Proof. done. Qed.

(** ** The admin listing *)

(** C9. [getMessages] returns every message of the event, whatever its
    delivery state and recipient, newest-created first. *)
Theorem getMessages_all_states (eventId : string) (db : Db) :
  ∃ msgs,
    getMessages eventId db = (Returned msgs, db)
    ∧ msgs ≡ₚ filter (λ m, MobileMessage.eventId m = eventId) (mobileMessage db)
    ∧ StronglySorted createdAtDesc msgs
    ∧ ∀ m, m ∈ mobileMessage db → MobileMessage.eventId m = eventId → m ∈ msgs.
Proof.
  destruct (findManyNewestFirst_spec
              (λ m, MobileMessage.eventId m = eventId) db)
    as (msgs & Hrun & Hperm & Hsorted).
  exists msgs. repeat split; try done.
  intros m Hm He. rewrite Hperm. by apply list_elem_of_filter.
Qed.

(** ** Reads and acknowledgement by id *)

Lemma head_filter_unique (P : MobileMessage.t → Prop) `{∀ x, Decision (P x)}
    (l : list MobileMessage.t) (m : MobileMessage.t) :
  NoDup (MobileMessage.id <$> l) → m ∈ l → P m →
  (∀ x, P x → MobileMessage.id x = MobileMessage.id m) →
  head (filter P l) = Some m.
Proof.
  intros Hnd Hin HP Hid. induction l as [|x l IH]; [by apply elem_of_nil in Hin|].
  rewrite fmap_cons in Hnd. apply NoDup_cons in Hnd as [Hx Hnd].
  rewrite filter_cons. destruct (decide (P x)) as [HPx|HPx].
  - simpl. f_equal. apply elem_of_cons in Hin as [->|Hin]; [done|].
    exfalso. apply Hx. rewrite (Hid x HPx). by apply list_elem_of_fmap_2.
  - apply elem_of_cons in Hin as [->|Hin]; [done|]. by apply IH.
Qed.

Lemma getMobileMessage_found (db : Db) (m : MobileMessage.t) :
  uniqueIds db → m ∈ mobileMessage db →
  getMobileMessage (MobileMessage.eventId m) (MobileMessage.id m) db
  = (Returned (mapMessageToDto m), db).
Proof.
  intros Hnd Hin. unfold getMobileMessage. run.
  rewrite (head_filter_unique _ _ m); [done|done|done|done|].
  by intros x [? _].
Qed.

(** C8. The read by id does not look at the delivery state: a queued message
    of the event is returned (as its DTO), not reported as missing. *)
Theorem getMobileMessage_returns_queued (db : Db) (m : MobileMessage.t) :
  uniqueIds db → m ∈ mobileMessage db →
  MobileMessage.deliveryStatus m = queued →
  MobileController.getMobileMessage (MobileMessage.eventId m) (MobileMessage.id m) db
  = (Returned (mapMessageToDto m), db).
Proof. intros Hnd Hin _. by apply getMobileMessage_found. Qed.

Lemma updateUnique_case {A} (P : A → Prop) `{∀ x, Decision (P x)}
    (f : A → A) (l : list A) :
  (Forall (λ x, ¬ P x) l ∧ head (filter P l) = None)
  ∨ (∃ pre x suf, l = pre ++ x :: suf ∧ P x ∧ Forall (λ y, ¬ P y) pre
       ∧ head (filter P l) = Some x
       ∧ updateUnique P f l = pre ++ f x :: suf).
Proof.
  induction l as [|y l IH]; [by left|].
  rewrite filter_cons. simpl. destruct (decide (P y)) as [Hy|Hy].
  - right. by exists [], y, l.
  - destruct IH as [[Hall Hnone]|(pre & x & suf & -> & Hx & Hpre & Hhd & Hupd)].
    + left. split; [by constructor|done].
    + right. exists (y :: pre), x, suf. rewrite Hupd. repeat split; try done.
      by constructor.
Qed.

Lemma applyData_set_unread (schema : Schema) (now : Date) (m : MobileMessage.t) :
  acknowledgedFrom schema now m (applyData schema (set_unread false) now m).
Proof.
  unfold acknowledgedFrom, applyData.
  destruct m, (refreshesUpdatedAt schema); by repeat split.
Qed.

(** C10. Acknowledging by id, whatever event the route names: when no
    message has the id the call throws NotFound and writes nothing;
    otherwise it returns ok, the message with that id gets [unread = false]
    with its other columns kept, and every other message and table is as
    before. *)
Theorem acknowledgeMessage_frame
    (schema : Schema) (eventId messageId : string) (db : Db) :
  (Forall (λ m, MobileMessage.id m ≠ messageId) (mobileMessage db)
   ∧ MobileController.acknowledgeMessage schema eventId messageId db
     = (Thrown (NotFoundException "Message not found"), db))
  ∨ (∃ pre m suf m',
       mobileMessage db = pre ++ m :: suf
       ∧ MobileMessage.id m = messageId
       ∧ Forall (λ x, MobileMessage.id x ≠ messageId) pre
       ∧ acknowledgedFrom schema (clock db) m m'
       ∧ MobileController.acknowledgeMessage schema eventId messageId db
         = (Returned true, with_mobileMessage db (pre ++ m' :: suf))).
Proof.
  unfold MobileController.acknowledgeMessage, acknowledgeMessage, update. run.
  destruct (updateUnique_case (λ m, MobileMessage.id m = messageId)
              (applyData schema (set_unread false) (clock db))
              (mobileMessage db))
    as [[Hall Hnone]|(pre & m & suf & Hl & Hm & Hpre & Hhd & Hupd)].
  - left. by rewrite Hnone.
  - right. exists pre, m, suf, (applyData schema (set_unread false) (clock db) m).
    rewrite Hhd. simpl. rewrite Hhd, Hupd.
    repeat split; try done; apply applyData_set_unread.
Qed.

(** ** Promotion of queued messages *)

Section Promotion.
Variable schema : Schema.
Variables inviteId attendeeId : string.

Lemma promote_promotedFrom (now : Date) (m : MobileMessage.t) :
  promotedFrom schema attendeeId now m (promote schema attendeeId now m).
Proof.
  unfold promotedFrom, promote, applyData.
  destruct m, (refreshesUpdatedAt schema); by repeat split.
Qed.

Lemma promote_not_pending (now : Date) (m : MobileMessage.t) :
  ¬ pending inviteId (promote schema attendeeId now m).
Proof.
  intros [_ Hq]. destruct (promote_promotedFrom now m) as (_ & Hd & _).
  congruence.
Qed.

Lemma promoted_none_pending (now : Date) (l : list MobileMessage.t) :
  filter (pending inviteId)
    ((λ m, if decide (pending inviteId m) then promote schema attendeeId now m else m) <$> l)
  = [].
Proof.
  induction l as [|m l IH]; [done|].
  rewrite fmap_cons, filter_cons, IH.
  destruct (decide (pending inviteId m)) as [Hp|Hp].
  - rewrite decide_False; [done|apply promote_not_pending].
  - by rewrite decide_False.
Qed.

Lemma deliverQueuedMessages_none (db : Db) :
  filter (pending inviteId) (mobileMessage db) = [] →
  deliverQueuedMessages schema inviteId attendeeId db = (Returned 0%nat, db).
Proof.
  intros Hnone. unfold deliverQueuedMessages. run. by rewrite Hnone.
Qed.

Lemma deliverQueuedMessages_some (db : Db) :
  filter (pending inviteId) (mobileMessage db) ≠ [] →
  deliverQueuedMessages schema inviteId attendeeId db
  = (Returned (length (filter (pending inviteId) (mobileMessage db))),
     with_mobileMessage db
       ((λ m, if decide (pending inviteId m) then promote schema attendeeId (clock db) m else m)
          <$> mobileMessage db)).
Proof.
  intros Hsome. unfold deliverQueuedMessages. run.
  destruct (filter (pending inviteId) (mobileMessage db)) as [|q qs] eqn:Hq;
    [done|].
  simpl. unfold updateMany. by rewrite Hq.
Qed.

End Promotion.

(** C5. [deliverQueuedMessages] rewrites exactly the queued messages of the
    invite: each gets the attendee id, the state [delivered] and a
    [deliveredAt]; every other message is as before.  It returns how many it
    rewrote, and returns 0, leaving the database as it is, when there is
    none. *)
Theorem deliverQueuedMessages_promotes
    (schema : Schema) (inviteId attendeeId : string) (db : Db) :
  ∃ msgs',
    deliverQueuedMessages schema inviteId attendeeId db
    = (Returned (length (filter (pending inviteId) (mobileMessage db))),
       with_mobileMessage db msgs')
    ∧ Forall2
        (λ m m', if decide (pending inviteId m)
                 then promotedFrom schema attendeeId (clock db) m m'
                 else m' = m)
        (mobileMessage db) msgs'
    ∧ (filter (pending inviteId) (mobileMessage db) = [] →
       deliverQueuedMessages schema inviteId attendeeId db = (Returned 0%nat, db)).
Proof.
  destruct (decide (filter (pending inviteId) (mobileMessage db) = []))
    as [Hnone|Hsome].
  - exists (mobileMessage db).
    rewrite with_mobileMessage_same, Hnone.
    split; [by apply deliverQueuedMessages_none|].
    split; [|by intros _; apply deliverQueuedMessages_none].
    apply Forall_Forall2_diag, Forall_forall. intros m Hm.
    destruct (decide (pending inviteId m)) as [Hp|]; [|done].
    assert (m ∈ filter (pending inviteId) (mobileMessage db))
      by by apply list_elem_of_filter.
    rewrite Hnone in *. by apply elem_of_nil in H.
  - eexists. split; [by apply deliverQueuedMessages_some|].
    split; [|by intros ?; apply deliverQueuedMessages_none].
    apply Forall2_fmap_r, Forall_Forall2_diag, Forall_forall. intros m _.
    unfold compose. destruct (decide (pending inviteId m)); [|done].
    apply promote_promotedFrom.
Qed.

(** C6. Two promotions in a row with the same arguments return [(N, 0)]:
    after the first, a second one (at any later time) returns 0 without an
    error and leaves the database, hence every message, as the first left
    it. *)
Theorem deliverQueuedMessages_twice
    (schema : Schema) (inviteId attendeeId : string) (db : Db) :
  ∃ (N : nat) (db' : Db),
    deliverQueuedMessages schema inviteId attendeeId db = (Returned N, db')
    ∧ ∀ db'', mobileMessage db'' = mobileMessage db' →
        deliverQueuedMessages schema inviteId attendeeId db''
        = (Returned 0%nat, db'').
Proof.
  destruct (decide (filter (pending inviteId) (mobileMessage db) = []))
    as [Hnone|Hsome].
  - exists 0%nat, db. split; [by apply deliverQueuedMessages_none|].
    intros db'' Heq. apply deliverQueuedMessages_none. by rewrite Heq.
  - eexists _, _. split; [by apply deliverQueuedMessages_some|].
    intros db'' Heq. apply deliverQueuedMessages_none. rewrite Heq. simpl.
    apply promoted_none_pending.
Qed.

(** ** The accepted audience *)

Lemma acceptedAttendees_run (db : Db) (eventId : string) :
  acceptedAttendees eventId (attendeesOf db eventId) db
  = (Returned (acceptedTargets db eventId), db).
Proof. done. Qed.

(** The block compares emails: an attendee of the event is kept exactly when
    its email is that of an accepted invite of the event or of an attendee
    of the event with [acceptedAt] set. *)
Lemma acceptedTargets_by_email (db : Db) (eventId : string) (a : Attendee.t) :
  a ∈ acceptedTargets db eventId ↔
    a ∈ attendeesOf db eventId
    ∧ (hasAcceptedInvite db eventId (Attendee.email a)
       ∨ ∃ a', a' ∈ attendee db ∧ Attendee.eventId a' = eventId
               ∧ Attendee.email a' = Attendee.email a
               ∧ Attendee.acceptedAt a' ≠ None).
Proof.
  unfold acceptedTargets, acceptedAttendees, hasAcceptedInvite. run.
  rewrite list_elem_of_filter, elem_of_union, !elem_of_list_to_set,
    !list_elem_of_fmap.
  split.
  - intros [[Hinv|Hacc] Hin]; (split; [done|]).
    + left. destruct Hinv as (i & Hmail & Hi).
      apply list_elem_of_filter in Hi as [(He & _ & Hst) Hi]. by exists i.
    + right. destruct Hacc as (a' & Hmail & Ha').
      apply list_elem_of_filter in Ha' as [(He & _ & Hat) Ha']. by exists a'.
  - intros [Hin [(i & Hi & He & Hmail & Hst)|(a' & Ha' & He & Hmail & Hat)]];
      (split; [|done]).
    + left. exists i. split; [done|]. apply list_elem_of_filter.
      split; [|done]. split; [done|split; [|done]].
      rewrite Hmail. by apply list_elem_of_fmap_2.
    + right. exists a'. split; [done|]. apply list_elem_of_filter.
      split; [|done]. split; [done|split; [|done]].
      rewrite Hmail. by apply list_elem_of_fmap_2.
Qed.

(** C7. The accepted audience is the union of the two signals: an attendee
    of the event is a delivery target exactly when an invite of the event
    with its email is accepted or its own [acceptedAt] is set. *)
Theorem accepted_audience_union (db : Db) (eventId : string) (a : Attendee.t) :
  uniqueEmails db →
  a ∈ attendee db → Attendee.eventId a = eventId →
  (a ∈ acceptedTargets db eventId ↔
     hasAcceptedInvite db eventId (Attendee.email a)
     ∨ Attendee.acceptedAt a ≠ None).
Proof.
  intros Huniq Ha He. rewrite acceptedTargets_by_email.
  assert (Hof : a ∈ attendeesOf db eventId) by by apply list_elem_of_filter.
  split.
  - intros [_ [Hinv|(a' & Ha' & He' & Hmail & Hat)]]; [by left|right].
    by rewrite <- (Huniq a' a Ha' Ha) by congruence.
  - intros [Hinv|Hat]; (split; [done|]); [by left|right]. by exists a.
Qed.

(** ** Fan-out *)

Lemma promiseAllMap_creates {A} (f : A → M MobileMessage.t)
    (R : Date → A → MobileMessage.t → Prop) :
  (∀ x db, ∃ m,
     f x db = (Returned m, with_mobileMessage db (mobileMessage db ++ [m]))
     ∧ R (clock db) x m) →
  ∀ xs db, ∃ ms,
    promiseAllMap f xs db
    = (Returned ms, with_mobileMessage db (mobileMessage db ++ ms))
    ∧ Forall2 (R (clock db)) xs ms.
Proof.
  intros Hf xs. induction xs as [|x xs IH]; intros db.
  - exists []. simpl. rewrite app_nil_r, with_mobileMessage_same.
    split; [done|constructor].
  - destruct (Hf x db) as (m & Hrun & HR).
    destruct (IH (with_mobileMessage db (mobileMessage db ++ [m])))
      as (ms & Hruns & HRs).
    exists (m :: ms). simpl. unfold mbind, M_bind. rewrite Hrun, Hruns.
    simpl in *. rewrite <- app_assoc. split; [done|by constructor].
Qed.

Lemma promiseAllMap_guarded {A B} (f : A → M B) (xs : list A) :
  (if bool_decide (0 < length xs)%nat then promiseAllMap f xs else mret [])
  = promiseAllMap f xs.
Proof. by destruct xs. Qed.

Section FanOut.
Variable schema : Schema.
Variable eventId : string.
Variable data : MessageData.t.

Lemma createForAttendee_creates (a : Attendee.t) (db : Db) :
  ∃ m, createForAttendee schema eventId data a db
       = (Returned m, with_mobileMessage db (mobileMessage db ++ [m]))
       ∧ deliveredTo eventId data (clock db) a m.
Proof. eexists. split; [reflexivity|]. by repeat split. Qed.

Lemma createForInvite_creates (i : Invite.t) (db : Db) :
  ∃ m, createForInvite schema eventId data i db
       = (Returned m, with_mobileMessage db (mobileMessage db ++ [m]))
       ∧ queuedFor eventId data i m.
Proof. eexists. split; [reflexivity|]. by repeat split. Qed.

(** The common tail of the broadcast path: one delivered row per attendee
    it is given, then one queued row per invite of the event. *)
Lemma fanOut_creates (attendees : list Attendee.t) (db : Db) :
  ∃ ds qs,
    fanOut schema eventId data attendees db
    = (Returned (head (ds ++ qs)),
       with_mobileMessage db (mobileMessage db ++ ds ++ qs))
    ∧ Forall2 (deliveredTo eventId data (clock db)) attendees ds
    ∧ Forall2 (queuedFor eventId data) (invitesOf db eventId) qs.
Proof.
  destruct (promiseAllMap_creates (createForAttendee schema eventId data)
              (deliveredTo eventId data) createForAttendee_creates attendees db)
    as (ds & Hds & HRds).
  destruct (promiseAllMap_creates (createForInvite schema eventId data)
              (λ _, queuedFor eventId data) createForInvite_creates
              (invitesOf db eventId)
              (with_mobileMessage db (mobileMessage db ++ ds)))
    as (qs & Hqs & HRqs).
  exists ds, qs. split; [|done].
  unfold fanOut. rewrite promiseAllMap_guarded.
  unfold mbind at 1, M_bind. rewrite Hds.
  unfold mbind at 1, M_bind, findMany. simpl.
  rewrite promiseAllMap_guarded.
  unfold mbind at 1, M_bind. fold (invitesOf db eventId). rewrite Hqs.
  simpl. rewrite <- app_assoc. by destruct ds.
Qed.

End FanOut.

(** ** Broadcast to the accepted audience *)

(** C2, refuted as stated: with one accepted attendee and one pending
    invite, a broadcast to the accepted audience also creates a queued
    message for the invite. *)
Lemma createMessage_accepted_queues :
  ¬ queuesNothing (createMessage Demo.schema "E1" Demo.toAccepted) Demo.db.
Proof.
  intros H. apply (Forall_lookup_1 _ _ 1%nat) with
    (x := {| MobileMessage.id := "msg-1"; MobileMessage.eventId := "E1";
             MobileMessage.attendeeId := None;
             MobileMessage.inviteId := Some "i1";
             MobileMessage.title := "Welcome";
             MobileMessage.body := "See you there";
             MobileMessage.attachments := JObj [];
             MobileMessage.status := "sent";
             MobileMessage.deliveryStatus := queued;
             MobileMessage.unread := true;
             MobileMessage.deliveredAt := None;
             MobileMessage.createdAt := 100;
             MobileMessage.updatedAt := 100 |}) in H.
  - by apply H.
  - by vm_compute.
Qed.

(** C2, as the code has it: a broadcast to the accepted audience creates one
    delivered message for each accepted attendee and then one queued message
    for each invite of the event, and returns the first of them. *)
Theorem createMessage_accepted_fanout
    (schema : Schema) (eventId : string) (data : MessageData.t) (db : Db) :
  truthy (MessageData.attendeeId data) = false →
  truthy (MessageData.inviteId data) = false →
  MessageData.status data = Str "sent" ∨ MessageData.status data = Undefined →
  MessageData.audience data = Str "accepted" →
  ∃ ds qs,
    createMessage schema eventId data db
    = (Returned (head (ds ++ qs)),
       with_mobileMessage db (mobileMessage db ++ ds ++ qs))
    ∧ Forall2 (deliveredTo eventId data (clock db))
        (acceptedTargets db eventId) ds
    ∧ Forall2 (queuedFor eventId data) (invitesOf db eventId) qs.
Proof.
  intros Hatt Hinv Hst Haud.
  destruct (fanOut_creates schema eventId data (acceptedTargets db eventId) db)
    as (ds & qs & Hrun & Hds & Hqs).
  exists ds, qs. split; [|done].
  unfold createMessage. rewrite Hatt, Hinv, Haud.
  replace (strictEq (MessageData.status data) "sent"
           || isUndefined (MessageData.status data)) with true
    by (by destruct Hst as [-> | ->]).
  simpl. unfold mbind at 1, M_bind, findMany.
  fold (attendeesOf db eventId).
  unfold mbind at 1, M_bind. rewrite acceptedAttendees_run. done.
Qed.

(** The broadcast of [Demo.toAccepted] on [Demo.db]. *)
Lemma createMessage_accepted_fanout_witness :
  truthy (MessageData.attendeeId Demo.toAccepted) = false
  ∧ ∃ ds qs,
      createMessage Demo.schema "E1" Demo.toAccepted Demo.db
      = (Returned (head (ds ++ qs)),
         with_mobileMessage Demo.db (mobileMessage Demo.db ++ ds ++ qs))
      ∧ Forall2 (deliveredTo "E1" Demo.toAccepted (clock Demo.db))
          (acceptedTargets Demo.db "E1") ds
      ∧ Forall2 (queuedFor "E1" Demo.toAccepted) (invitesOf Demo.db "E1") qs.
Proof.
  split; [reflexivity|].
  apply (createMessage_accepted_fanout Demo.schema "E1" Demo.toAccepted Demo.db);
    [reflexivity|reflexivity|right; reflexivity|reflexivity].
Defined.

(** ** A request naming both recipients *)

(** C3, refuted as stated: a request with both [attendeeId] and [inviteId]
    is not refused. *)
Lemma createMessage_both_not_rejected :
  ¬ rejectedBeforeWrite (createMessage Demo.schema "E1" Demo.toBoth) Demo.db.
Proof. intros [e H]. vm_compute in H. discriminate. Qed.

(** C3, as the code has it: when both [attendeeId] and [inviteId] are given,
    [createMessage] takes the direct path: it creates one delivered message
    for the attendee, without the invite, and returns it. *)
Theorem createMessage_both_direct
    (schema : Schema) (eventId : string) (data : MessageData.t) (db : Db)
    (a i : string) :
  MessageData.attendeeId data = Str a → a ≠ "" →
  MessageData.inviteId data = Str i → i ≠ "" →
  ∃ m,
    createMessage schema eventId data db
    = (Returned (Some m), with_mobileMessage db (mobileMessage db ++ [m]))
    ∧ MobileMessage.eventId m = eventId
    ∧ MobileMessage.attendeeId m = Some a
    ∧ MobileMessage.inviteId m = None
    ∧ MobileMessage.title m = MessageData.title data
    ∧ MobileMessage.body m = MessageData.body data
    ∧ MobileMessage.deliveryStatus m = delivered
    ∧ MobileMessage.deliveredAt m = Some (clock db)
    ∧ MobileMessage.unread m = true.
Proof.
  intros Ha Hane Hi Hine. unfold createMessage, truthy. rewrite Ha.
  rewrite bool_decide_false by done. simpl.
  eexists. split; [reflexivity|]. simpl. rewrite Ha. by repeat split.
Qed.

(** The request [Demo.toBoth] on [Demo.db]. *)
Lemma createMessage_both_direct_witness :
  MessageData.attendeeId Demo.toBoth = Str "a1"
  ∧ MessageData.inviteId Demo.toBoth = Str "i1"
  ∧ ∃ m,
      createMessage Demo.schema "E1" Demo.toBoth Demo.db
      = (Returned (Some m),
         with_mobileMessage Demo.db (mobileMessage Demo.db ++ [m]))
      ∧ MobileMessage.eventId m = "E1"
      ∧ MobileMessage.attendeeId m = Some "a1"
      ∧ MobileMessage.inviteId m = None
      ∧ MobileMessage.title m = MessageData.title Demo.toBoth
      ∧ MobileMessage.body m = MessageData.body Demo.toBoth
      ∧ MobileMessage.deliveryStatus m = delivered
      ∧ MobileMessage.deliveredAt m = Some (clock Demo.db)
      ∧ MobileMessage.unread m = true.
Proof.
  split; [reflexivity|split; [reflexivity|]].
  apply (createMessage_both_direct Demo.schema "E1" Demo.toBoth Demo.db "a1" "i1");
    [reflexivity|discriminate|reflexivity|discriminate].
Defined.

(** ** The delivery invariant *)

Lemma deliveredTo_invariant eventId data now a m :
  deliveredTo eventId data now a m → deliveryInvariant m.
Proof.
  intros (_ & _ & _ & _ & _ & Hd & Hat & _). split; [congruence|].
  intros _. by rewrite Hat.
Qed.

Lemma queuedFor_invariant eventId data i m :
  queuedFor eventId data i m → deliveryInvariant m.
Proof.
  intros (_ & Hi & Ha & _ & _ & Hq & _). split; [|congruence].
  intros _. by rewrite Hi, Ha.
Qed.

Lemma promotedFrom_invariant schema attendeeId now m m' :
  promotedFrom schema attendeeId now m m' → deliveryInvariant m'.
Proof.
  intros (_ & Hd & Hat & _). split; [congruence|]. intros _. by rewrite Hat.
Qed.

(** A row addressed to an attendee and without a delivery time breaks the
    invariant in either delivery state. *)
Lemma undelivered_attendee_row m :
  MobileMessage.attendeeId m ≠ None → MobileMessage.deliveredAt m = None →
  ¬ deliveryInvariant m.
Proof.
  intros Ha Hat [Hq Hd]. destruct (MobileMessage.deliveryStatus m) eqn:Hs.
  - by apply Hd.
  - by destruct Hq.
Qed.

(** Every row [createMessage] creates, on any of its paths, satisfies the
    invariant. *)
Lemma createMessage_deliveryInvariant
    (schema : Schema) (eventId : string) (data : MessageData.t) (db : Db) :
  ∃ r ms,
    createMessage schema eventId data db
    = (Returned r, with_mobileMessage db (mobileMessage db ++ ms))
    ∧ Forall deliveryInvariant ms.
Proof.
  unfold createMessage.
  destruct (truthy (MessageData.attendeeId data)) eqn:Hatt.
  { eexists _, [_]. split; [reflexivity|]. constructor; [|constructor].
    by split. }
  destruct (truthy (MessageData.inviteId data)) eqn:Hinv.
  { eexists _, [_]. split; [reflexivity|]. constructor; [|constructor].
    split; [|done]. intros _. simpl. split; [|done].
    by destruct (MessageData.inviteId data). }
  simpl.
  destruct (strictEq (MessageData.status data) "sent"
            || isUndefined (MessageData.status data)).
  2:{ eexists _, [_]. split; [reflexivity|]. constructor; [|constructor].
      by split. }
  unfold mbind at 1, M_bind, findMany. fold (attendeesOf db eventId).
  assert (Hfan : ∀ attendees, ∃ r ms,
            fanOut schema eventId data attendees db
            = (Returned r, with_mobileMessage db (mobileMessage db ++ ms))
            ∧ Forall deliveryInvariant ms).
  { intros attendees.
    destruct (fanOut_creates schema eventId data attendees db)
      as (ds & qs & Hrun & Hds & Hqs).
    exists (head (ds ++ qs)), (ds ++ qs). split; [done|].
    apply Forall_app. split.
    - eapply Forall2_Forall_r; [exact Hds|]. apply Forall_forall.
      intros a _ m. apply deliveredTo_invariant.
    - eapply Forall2_Forall_r; [exact Hqs|]. apply Forall_forall.
      intros i _ m. apply queuedFor_invariant. }
  destruct (strictEq (MessageData.audience data) "accepted").
  { rewrite orb_true_r. unfold mbind at 1, M_bind.
    rewrite acceptedAttendees_run. apply Hfan. }
  rewrite orb_false_r.
  destruct (strictEq (MessageData.audience data) "invited"); [|apply Hfan].
  destruct (promiseAllMap_creates (createForInvite schema eventId data)
              (λ _, queuedFor eventId data)
              (createForInvite_creates schema eventId data)
              (invitesOf db eventId) db) as (qs & Hqs & HRqs).
  exists (head qs), qs. split.
  - unfold mbind at 1, M_bind, findMany. fold (invitesOf db eventId).
    unfold mbind at 1, M_bind. by rewrite Hqs.
  - eapply Forall2_Forall_r; [exact HRqs|]. apply Forall_forall.
    intros i _ m. apply queuedFor_invariant.
Qed.

(** Every row [deliverQueuedMessages] rewrites satisfies the invariant. *)
Lemma deliverQueuedMessages_deliveryInvariant
    (schema : Schema) (inviteId attendeeId : string) (db : Db) (m m' : MobileMessage.t) :
  pending inviteId m →
  promotedFrom schema attendeeId (clock db) m m' → deliveryInvariant m'.
Proof. intros _. apply promotedFrom_invariant. Qed.

(** [sendMessage] on an existing message: one row per attendee of the event,
    addressed to the attendee, with no delivery time and the delivery state
    left to the column default. *)
Lemma sendMessage_rows
    (schema : Schema) (eventId messageId : string) (db : Db)
    (message : MobileMessage.t) :
  head (filter (λ m, MobileMessage.id m = messageId
                     ∧ MobileMessage.eventId m = eventId) (mobileMessage db))
  = Some message →
  ∃ ms,
    sendMessage schema eventId messageId db
    = (Returned (match head ms with Some m => Some m | None => Some message end),
       with_mobileMessage db (mobileMessage db ++ ms))
    ∧ Forall2
        (λ a m, MobileMessage.attendeeId m = Some (Attendee.id a)
                ∧ MobileMessage.inviteId m = None
                ∧ MobileMessage.deliveredAt m = None
                ∧ MobileMessage.deliveryStatus m = defaultDeliveryStatus schema)
        (attendeesOf db eventId) ms.
Proof.
  intros Hfound. unfold sendMessage.
  unfold mbind at 1, M_bind, findFirst. rewrite Hfound.
  unfold mbind at 1, M_bind. unfold mret at 1, M_ret.
  unfold mbind at 1, M_bind, findMany. fold (attendeesOf db eventId).
  match goal with
  | |- context [promiseAllMap ?f _] =>
      destruct (promiseAllMap_creates f
        (λ _ a m, MobileMessage.attendeeId m = Some (Attendee.id a)
                  ∧ MobileMessage.inviteId m = None
                  ∧ MobileMessage.deliveredAt m = None
                  ∧ MobileMessage.deliveryStatus m = defaultDeliveryStatus schema))
        with (xs := attendeesOf db eventId) (db := db) as (ms & Hms & HR)
  end.
  { intros a db0. eexists. split; [reflexivity|]. by repeat split. }
  exists ms. split; [|done].
  unfold mbind at 1, M_bind. by rewrite Hms.
Qed.

(** C4, on [sendMessage]: sending an existing message to an event with one
    attendee creates a row for that attendee that has no delivery time and
    takes its delivery state from the column default; whichever of the two
    states the default is, the row breaks the invariant. *)
Theorem sendMessage_breaks_deliveryInvariant (d : DeliveryStatus) (r : bool) :
  let schema :=
    {| cuid := cuid Demo.schema; defaultDeliveryStatus := d;
       refreshesUpdatedAt := r |} in
  ∃ m,
    sendMessage schema "E1" "msg-0" Demo.dbWithDraft
    = (Returned (Some m),
       with_mobileMessage Demo.dbWithDraft
         (mobileMessage Demo.dbWithDraft ++ [m]))
    ∧ MobileMessage.attendeeId m = Some "a1"
    ∧ MobileMessage.inviteId m = None
    ∧ MobileMessage.deliveryStatus m = d
    ∧ MobileMessage.deliveredAt m = None
    ∧ ¬ deliveryInvariant m.
Proof.
  intros schema. eexists. split; [by vm_compute|].
  repeat split; try done. by apply undelivered_attendee_row.
Qed.

(** ** Instances *)

(** Alice, who accepted, in a database whose only invite is pending. *)
Lemma accepted_audience_union_witness :
  uniqueEmails Demo.db
  ∧ Demo.alice ∈ attendee Demo.db
  ∧ (Demo.alice ∈ acceptedTargets Demo.db "E1" ↔
       hasAcceptedInvite Demo.db "E1" (Attendee.email Demo.alice)
       ∨ Attendee.acceptedAt Demo.alice ≠ None).
Proof.
  assert (Hin : Demo.alice ∈ attendee Demo.db) by (simpl; constructor).
  assert (Huniq : uniqueEmails Demo.db).
  { intros a1 a2 H1 H2 _ _. simpl in H1, H2.
    apply list_elem_of_singleton in H1, H2. congruence. }
  split; [exact Huniq|split; [exact Hin|]].
  apply (accepted_audience_union Demo.db "E1" Demo.alice Huniq Hin).
  reflexivity.
Defined.

(** The queued message [Demo.waiting] read by its id. *)
Lemma getMobileMessage_returns_queued_witness :
  uniqueIds Demo.dbWithWaiting
  ∧ MobileMessage.deliveryStatus Demo.waiting = queued
  ∧ MobileController.getMobileMessage "E1" "msg-7" Demo.dbWithWaiting
    = (Returned (mapMessageToDto Demo.waiting), Demo.dbWithWaiting).
Proof.
  assert (Hnd : uniqueIds Demo.dbWithWaiting).
  { unfold uniqueIds. simpl. apply (bool_decide_unpack _). by vm_compute. }
  split; [exact Hnd|split; [reflexivity|]].
  apply (getMobileMessage_returns_queued Demo.dbWithWaiting Demo.waiting Hnd);
    [simpl; do 2 constructor|reflexivity].
Defined.

(** * Further properties *)

(** ** The paths of [createMessage] *)

Lemma isBroadcast_guard (data : MessageData.t) :
  isBroadcast data →
  negb (truthy (MessageData.attendeeId data))
  && (strictEq (MessageData.status data) "sent"
      || isUndefined (MessageData.status data)) = true.
Proof. intros (-> & _ & [-> | ->]); done. Qed.

(** X1. A broadcast to the 'invited' audience creates one queued message for
    each invite of the event and nothing else: no attendee of the event
    gets a delivered message. *)
Theorem createMessage_invited_queues_only
    (schema : Schema) (eventId : string) (data : MessageData.t) (db : Db) :
  isBroadcast data →
  MessageData.audience data = Str "invited" →
  ∃ qs,
    createMessage schema eventId data db
    = (Returned (head qs), with_mobileMessage db (mobileMessage db ++ qs))
    ∧ Forall2 (queuedFor eventId data) (invitesOf db eventId) qs.
Proof.
  intros Hb Haud.
  destruct (promiseAllMap_creates (createForInvite schema eventId data)
              (λ _, queuedFor eventId data)
              (createForInvite_creates schema eventId data)
              (invitesOf db eventId) db) as (qs & Hqs & HRqs).
  exists qs. split; [|done].
  unfold createMessage. rewrite (isBroadcast_guard data Hb).
  destruct Hb as (-> & -> & _). rewrite Haud. simpl.
  unfold mbind at 1, M_bind, findMany.
  unfold mbind at 1, M_bind. fold (invitesOf db eventId).
  unfold mbind at 1, M_bind. by rewrite Hqs.
Qed.

(** The 'invited' broadcast of [Fixtures.toInvited] on [Demo.db]. *)
Lemma createMessage_invited_queues_only_witness :
  isBroadcast Fixtures.toInvited
  ∧ ∃ qs,
      createMessage Demo.schema "E1" Fixtures.toInvited Demo.db
      = (Returned (head qs),
         with_mobileMessage Demo.db (mobileMessage Demo.db ++ qs))
      ∧ Forall2 (queuedFor "E1" Fixtures.toInvited) (invitesOf Demo.db "E1") qs.
Proof.
  assert (Hb : isBroadcast Fixtures.toInvited)
    by (split; [reflexivity|split; [reflexivity|left; reflexivity]]).
  split; [exact Hb|].
  apply (createMessage_invited_queues_only Demo.schema "E1" Fixtures.toInvited
           Demo.db Hb).
  reflexivity.
Defined.

(** X2. A broadcast whose audience is neither 'invited' nor 'accepted' (in
    particular 'all' or none) creates one delivered message for each
    attendee of the event and one queued message for each invite of the
    event, and returns the first of them. *)
Theorem createMessage_all_fanout
    (schema : Schema) (eventId : string) (data : MessageData.t) (db : Db) :
  isBroadcast data →
  strictEq (MessageData.audience data) "invited" = false →
  strictEq (MessageData.audience data) "accepted" = false →
  ∃ ds qs,
    createMessage schema eventId data db
    = (Returned (head (ds ++ qs)),
       with_mobileMessage db (mobileMessage db ++ ds ++ qs))
    ∧ Forall2 (deliveredTo eventId data (clock db)) (attendeesOf db eventId) ds
    ∧ Forall2 (queuedFor eventId data) (invitesOf db eventId) qs.
Proof.
  intros Hb Hinv Hacc.
  destruct (fanOut_creates schema eventId data (attendeesOf db eventId) db)
    as (ds & qs & Hrun & Hds & Hqs).
  exists ds, qs. split; [|done].
  unfold createMessage. rewrite (isBroadcast_guard data Hb).
  destruct Hb as (-> & -> & _). rewrite Hinv, Hacc. simpl.
  unfold mbind at 1, M_bind, findMany. by fold (attendeesOf db eventId).
Qed.

(** The broadcast of [Fixtures.toAll] on [Demo.db]. *)
Lemma createMessage_all_fanout_witness :
  isBroadcast Fixtures.toAll
  ∧ ∃ ds qs,
      createMessage Demo.schema "E1" Fixtures.toAll Demo.db
      = (Returned (head (ds ++ qs)),
         with_mobileMessage Demo.db (mobileMessage Demo.db ++ ds ++ qs))
      ∧ Forall2 (deliveredTo "E1" Fixtures.toAll (clock Demo.db))
          (attendeesOf Demo.db "E1") ds
      ∧ Forall2 (queuedFor "E1" Fixtures.toAll) (invitesOf Demo.db "E1") qs.
Proof.
  assert (Hb : isBroadcast Fixtures.toAll)
    by (split; [reflexivity|split; [reflexivity|right; reflexivity]]).
  split; [exact Hb|].
  apply (createMessage_all_fanout Demo.schema "E1" Fixtures.toAll Demo.db Hb);
    reflexivity.
Defined.

(** X3. A request naming an invite and no attendee creates exactly one
    queued message for that invite id, without a delivery time and without
    looking the invite up. *)
Theorem createMessage_invite_queued
    (schema : Schema) (eventId : string) (data : MessageData.t) (db : Db)
    (i : string) :
  truthy (MessageData.attendeeId data) = false →
  MessageData.inviteId data = Str i → i ≠ "" →
  ∃ m,
    createMessage schema eventId data db
    = (Returned (Some m), with_mobileMessage db (mobileMessage db ++ [m]))
    ∧ MobileMessage.eventId m = eventId
    ∧ MobileMessage.inviteId m = Some i
    ∧ MobileMessage.attendeeId m = None
    ∧ MobileMessage.title m = MessageData.title data
    ∧ MobileMessage.body m = MessageData.body data
    ∧ MobileMessage.deliveryStatus m = queued
    ∧ MobileMessage.deliveredAt m = None
    ∧ MobileMessage.unread m = true.
Proof.
  intros Hatt Hi Hne. unfold createMessage. rewrite Hatt, Hi. unfold truthy.
  rewrite bool_decide_false by done. simpl.
  eexists. split; [reflexivity|]. simpl. rewrite Hi. by repeat split.
Qed.

(** The request [Fixtures.toInvite] on [Fixtures.dbCarol], where no invite
    has the id. *)
Lemma createMessage_invite_queued_witness :
  truthy (MessageData.attendeeId Fixtures.toInvite) = false
  ∧ ∃ m,
      createMessage Demo.schema "E1" Fixtures.toInvite Fixtures.dbCarol
      = (Returned (Some m),
         with_mobileMessage Fixtures.dbCarol
           (mobileMessage Fixtures.dbCarol ++ [m]))
      ∧ MobileMessage.eventId m = "E1"
      ∧ MobileMessage.inviteId m = Some "i1"
      ∧ MobileMessage.attendeeId m = None
      ∧ MobileMessage.title m = MessageData.title Fixtures.toInvite
      ∧ MobileMessage.body m = MessageData.body Fixtures.toInvite
      ∧ MobileMessage.deliveryStatus m = queued
      ∧ MobileMessage.deliveredAt m = None
      ∧ MobileMessage.unread m = true.
Proof.
  split; [reflexivity|].
  apply (createMessage_invite_queued Demo.schema "E1" Fixtures.toInvite
           Fixtures.dbCarol "i1"); [reflexivity|reflexivity|discriminate].
Defined.

(** X4. A request without a recipient whose status is given and is not
    'sent' is not fanned out: exactly one message is stored, and it is
    stored as delivered, with a delivery time, read, and for no invite. *)
Theorem createMessage_unsent_single
    (schema : Schema) (eventId : string) (data : MessageData.t) (db : Db) :
  truthy (MessageData.attendeeId data) = false →
  truthy (MessageData.inviteId data) = false →
  strictEq (MessageData.status data) "sent" = false →
  isUndefined (MessageData.status data) = false →
  ∃ m,
    createMessage schema eventId data db
    = (Returned (Some m), with_mobileMessage db (mobileMessage db ++ [m]))
    ∧ MobileMessage.eventId m = eventId
    ∧ MobileMessage.attendeeId m = toColumn (MessageData.attendeeId data)
    ∧ MobileMessage.inviteId m = None
    ∧ MobileMessage.status m = orElse (MessageData.status data) "sent"
    ∧ MobileMessage.deliveryStatus m = delivered
    ∧ MobileMessage.deliveredAt m = Some (clock db)
    ∧ MobileMessage.unread m = false.
Proof.
  intros Hatt Hinv Hsent Hundef. unfold createMessage.
  rewrite Hatt, Hinv, Hsent, Hundef. simpl.
  eexists. split; [reflexivity|]. by repeat split.
Qed.

(** The draft [Fixtures.asDraft] on [Demo.db]. *)
Lemma createMessage_unsent_single_witness :
  truthy (MessageData.attendeeId Fixtures.asDraft) = false
  ∧ ∃ m,
      createMessage Demo.schema "E1" Fixtures.asDraft Demo.db
      = (Returned (Some m),
         with_mobileMessage Demo.db (mobileMessage Demo.db ++ [m]))
      ∧ MobileMessage.eventId m = "E1"
      ∧ MobileMessage.attendeeId m
        = toColumn (MessageData.attendeeId Fixtures.asDraft)
      ∧ MobileMessage.inviteId m = None
      ∧ MobileMessage.status m
        = orElse (MessageData.status Fixtures.asDraft) "sent"
      ∧ MobileMessage.deliveryStatus m = delivered
      ∧ MobileMessage.deliveredAt m = Some (clock Demo.db)
      ∧ MobileMessage.unread m = false.
Proof.
  split; [reflexivity|].
  apply (createMessage_unsent_single Demo.schema "E1" Fixtures.asDraft Demo.db);
    reflexivity.
Defined.

(** ** What the table keeps *)

Lemma generated_app schema rows ms1 ms2 :
  generated schema rows ms1 → generated schema (rows ++ ms1) ms2 →
  generated schema rows (ms1 ++ ms2).
Proof.
  revert rows. induction ms1 as [|m ms1 IH]; intros rows H1 H2; simpl in *.
  - by rewrite app_nil_r in H2.
  - destruct H1 as [Hid H1]. split; [done|]. apply IH; [done|].
    by rewrite <- app_assoc.
Qed.

Lemma generated_NoDup schema rows ms :
  freshIds schema → NoDup (MobileMessage.id <$> rows) →
  generated schema rows ms → NoDup (MobileMessage.id <$> rows ++ ms).
Proof.
  intros Hfresh. revert rows. induction ms as [|m ms IH]; intros rows Hnd Hgen.
  - by rewrite app_nil_r.
  - destruct Hgen as [Hid Hgen]. rewrite (cons_middle m), app_assoc.
    apply IH; [|done]. rewrite fmap_app. simpl.
    apply NoDup_app. split; [done|split].
    + intros x Hx Hx'. apply list_elem_of_singleton in Hx'. subst x.
      rewrite Hid in Hx. by apply (Hfresh rows).
    + apply NoDup_singleton.
Qed.

Lemma promiseAllMap_generated {A} (schema : Schema)
    (f : A → M MobileMessage.t) (Q : MobileMessage.t → Prop) :
  (∀ x db, ∃ m,
     f x db = (Returned m, with_mobileMessage db (mobileMessage db ++ [m]))
     ∧ MobileMessage.id m = cuid schema (mobileMessage db) ∧ Q m) →
  ∀ xs db, ∃ ms,
    promiseAllMap f xs db
    = (Returned ms, with_mobileMessage db (mobileMessage db ++ ms))
    ∧ generated schema (mobileMessage db) ms ∧ Forall Q ms.
Proof.
  intros Hf xs. induction xs as [|x xs IH]; intros db.
  - exists []. simpl. rewrite app_nil_r, with_mobileMessage_same.
    by repeat split.
  - destruct (Hf x db) as (m & Hrun & Hid & HQ).
    destruct (IH (with_mobileMessage db (mobileMessage db ++ [m])))
      as (ms & Hruns & Hgen & HQs).
    exists (m :: ms). simpl. unfold mbind, M_bind. rewrite Hrun, Hruns.
    simpl in *. rewrite <- app_assoc. split; [done|]. split; [done|].
    by constructor.
Qed.

Section Rows.
Variable schema : Schema.
Variable eventId : string.
Variable data : MessageData.t.

Lemma createForAttendee_generated (a : Attendee.t) (db : Db) :
  ∃ m, createForAttendee schema eventId data a db
       = (Returned m, with_mobileMessage db (mobileMessage db ++ [m]))
       ∧ MobileMessage.id m = cuid schema (mobileMessage db)
       ∧ MobileMessage.eventId m = eventId.
Proof. eexists. split; [reflexivity|]. by split. Qed.

Lemma createForInvite_generated (i : Invite.t) (db : Db) :
  ∃ m, createForInvite schema eventId data i db
       = (Returned m, with_mobileMessage db (mobileMessage db ++ [m]))
       ∧ MobileMessage.id m = cuid schema (mobileMessage db)
       ∧ MobileMessage.eventId m = eventId.
Proof. eexists. split; [reflexivity|]. by split. Qed.

Lemma fanOut_generated (attendees : list Attendee.t) (db : Db) :
  ∃ ms,
    fanOut schema eventId data attendees db
    = (Returned (head ms), with_mobileMessage db (mobileMessage db ++ ms))
    ∧ generated schema (mobileMessage db) ms
    ∧ Forall (λ m, MobileMessage.eventId m = eventId) ms.
Proof.
  destruct (promiseAllMap_generated schema (createForAttendee schema eventId data)
              (λ m, MobileMessage.eventId m = eventId)
              createForAttendee_generated attendees db)
    as (ds & Hds & Hgds & HQds).
  destruct (promiseAllMap_generated schema (createForInvite schema eventId data)
              (λ m, MobileMessage.eventId m = eventId)
              createForInvite_generated (invitesOf db eventId)
              (with_mobileMessage db (mobileMessage db ++ ds)))
    as (qs & Hqs & Hgqs & HQqs).
  exists (ds ++ qs). split; [|split].
  - unfold fanOut. rewrite promiseAllMap_guarded.
    unfold mbind at 1, M_bind. rewrite Hds.
    unfold mbind at 1, M_bind, findMany. simpl.
    rewrite promiseAllMap_guarded.
    unfold mbind at 1, M_bind. fold (invitesOf db eventId). rewrite Hqs.
    simpl. rewrite <- app_assoc. by destruct ds.
  - by apply generated_app.
  - by apply Forall_app.
Qed.

(** Every path of [createMessage] appends rows of the event, with generated
    ids, and returns the first of them. *)
Lemma createMessage_rows (db : Db) :
  ∃ ms,
    createMessage schema eventId data db
    = (Returned (head ms), with_mobileMessage db (mobileMessage db ++ ms))
    ∧ generated schema (mobileMessage db) ms
    ∧ Forall (λ m, MobileMessage.eventId m = eventId) ms.
Proof.
  unfold createMessage.
  destruct (truthy (MessageData.attendeeId data)).
  { eexists [_]. split; [reflexivity|]. split; [done|]. by repeat constructor. }
  destruct (truthy (MessageData.inviteId data)).
  { eexists [_]. split; [reflexivity|]. split; [done|]. by repeat constructor. }
  simpl.
  destruct (strictEq (MessageData.status data) "sent"
            || isUndefined (MessageData.status data)).
  2:{ eexists [_]. split; [reflexivity|]. split; [done|].
      by repeat constructor. }
  unfold mbind at 1, M_bind, findMany. fold (attendeesOf db eventId).
  destruct (strictEq (MessageData.audience data) "accepted").
  { rewrite orb_true_r. unfold mbind at 1, M_bind.
    rewrite acceptedAttendees_run. apply fanOut_generated. }
  rewrite orb_false_r.
  destruct (strictEq (MessageData.audience data) "invited");
    [|apply fanOut_generated].
  destruct (promiseAllMap_generated schema (createForInvite schema eventId data)
              (λ m, MobileMessage.eventId m = eventId)
              createForInvite_generated (invitesOf db eventId) db)
    as (qs & Hqs & Hgqs & HQqs).
  exists qs. split; [|done].
  unfold mbind at 1, M_bind, findMany. fold (invitesOf db eventId).
  unfold mbind at 1, M_bind. by rewrite Hqs.
Qed.

End Rows.

Lemma deleteUnique_case {A} (P : A → Prop) `{∀ x, Decision (P x)} (l : list A) :
  (Forall (λ x, ¬ P x) l ∧ head (filter P l) = None ∧ deleteUnique P l = l)
  ∨ (∃ pre x suf, l = pre ++ x :: suf ∧ P x ∧ Forall (λ y, ¬ P y) pre
       ∧ head (filter P l) = Some x
       ∧ deleteUnique P l = pre ++ suf).
Proof.
  induction l as [|y l IH]; [by left|].
  rewrite filter_cons. simpl. destruct (decide (P y)) as [Hy|Hy].
  - right. by exists [], y, l.
  - destruct IH as [(Hall & Hnone & Hdel)|(pre & x & suf & -> & Hx & Hpre & Hhd & Hdel)].
    + left. rewrite Hdel. split; [by constructor|done].
    + right. exists (y :: pre), x, suf. rewrite Hdel. repeat split; try done.
      by constructor.
Qed.

Lemma acknowledgedFrom_invariant schema now m m' :
  acknowledgedFrom schema now m m' → deliveryInvariant m → deliveryInvariant m'.
Proof.
  intros (_ & _ & _ & Ha & Hi & _ & _ & _ & _ & Hs & Hd & _) [Hq Hdel].
  unfold deliveryInvariant. by rewrite Ha, Hi, Hs, Hd.
Qed.

(** The table after [acknowledgeMessage]: as it was, or with the first row
    of the id acknowledged. *)
Lemma acknowledgeMessage_table (schema : Schema) (messageId : string) (db : Db) :
  (acknowledgeMessage schema messageId db).2 = db
  ∨ ∃ pre m suf,
      mobileMessage db = pre ++ m :: suf
      ∧ MobileMessage.id m = messageId
      ∧ Forall (λ x, MobileMessage.id x ≠ messageId) pre
      ∧ acknowledgeMessage schema messageId db
        = (Returned true,
           with_mobileMessage db
             (pre ++ applyData schema (set_unread false) (clock db) m :: suf)).
Proof.
  unfold acknowledgeMessage, update. run.
  destruct (updateUnique_case (λ m, MobileMessage.id m = messageId)
              (applyData schema (set_unread false) (clock db))
              (mobileMessage db))
    as [[Hall Hnone]|(pre & m & suf & Hl & Hm & Hpre & Hhd & Hupd)].
  - left. by rewrite Hnone.
  - right. exists pre, m, suf. rewrite Hhd. simpl. by rewrite Hhd, Hupd.
Qed.

(** The table after [deleteMessage]: as it was, or without the first row of
    the id. *)
Lemma deleteMessage_table (eventId id : string) (db : Db) :
  (Forall (λ m, MobileMessage.id m ≠ id) (mobileMessage db)
   ∧ deleteMessage eventId id db
     = (Thrown (NotFoundException "Message with ID not found"), db))
  ∨ ∃ pre m suf,
      mobileMessage db = pre ++ m :: suf
      ∧ MobileMessage.id m = id
      ∧ Forall (λ x, MobileMessage.id x ≠ id) pre
      ∧ deleteMessage eventId id db
        = (Returned (), with_mobileMessage db (pre ++ suf)).
Proof.
  unfold deleteMessage, tryCatch, delete. run.
  destruct (deleteUnique_case (λ m, MobileMessage.id m = id) (mobileMessage db))
    as [(Hall & Hnone & _)|(pre & m & suf & Hl & Hm & Hpre & Hhd & Hdel)].
  - left. by rewrite Hnone.
  - right. exists pre, m, suf. by rewrite Hhd, Hdel.
Qed.

(** X5. The delivery invariant of the message table (queued rows carry an
    invite and no attendee, delivered rows carry a delivery time) is kept by
    [createMessage], [deliverQueuedMessages], [acknowledgeMessage] and
    [deleteMessage], whatever their arguments. *)
Theorem deliveryInvariant_kept (schema : Schema) (db : Db) :
  Forall deliveryInvariant (mobileMessage db) →
  (∀ eventId data,
     Forall deliveryInvariant
       (mobileMessage (createMessage schema eventId data db).2))
  ∧ (∀ inviteId attendeeId,
       Forall deliveryInvariant
         (mobileMessage (deliverQueuedMessages schema inviteId attendeeId db).2))
  ∧ (∀ messageId,
       Forall deliveryInvariant
         (mobileMessage (acknowledgeMessage schema messageId db).2))
  ∧ (∀ eventId id,
       Forall deliveryInvariant (mobileMessage (deleteMessage eventId id db).2)).
Proof.
  intros Hinv. repeat split.
  - intros eventId data.
    destruct (createMessage_deliveryInvariant schema eventId data db)
      as (r & ms & -> & Hms).
    simpl. by apply Forall_app.
  - intros inviteId attendeeId.
    destruct (decide (filter (pending inviteId) (mobileMessage db) = []))
      as [Hnone|Hsome].
    + by rewrite deliverQueuedMessages_none.
    + rewrite deliverQueuedMessages_some by done. simpl.
      apply Forall_fmap. eapply Forall_impl; [exact Hinv|].
      intros m Hm. simpl. destruct (decide (pending inviteId m)); [|done].
      eapply promotedFrom_invariant, promote_promotedFrom.
  - intros messageId.
    destruct (acknowledgeMessage_table schema messageId db)
      as [->|(pre & m & suf & Hl & _ & _ & ->)]; [done|].
    simpl. rewrite Hl in Hinv.
    apply Forall_app in Hinv as [Hpre Hrest].
    apply Forall_cons in Hrest as [Hm Hsuf].
    apply Forall_app. split; [done|]. constructor; [|done].
    eapply acknowledgedFrom_invariant; [apply applyData_set_unread|done].
  - intros eventId id.
    destruct (deleteMessage_table eventId id db)
      as [[_ ->]|(pre & m & suf & Hl & _ & _ & ->)]; [done|].
    simpl. rewrite Hl in Hinv.
    apply Forall_app in Hinv as [Hpre Hrest].
    apply Forall_cons in Hrest as [Hm Hsuf].
    by apply Forall_app.
Qed.

Lemma string_length_append (s1 s2 : string) :
  String.length (String.append s1 s2) = (String.length s1 + String.length s2)%nat.
Proof. induction s1 as [|c s1 IH]; simpl; [done|by rewrite IH]. Qed.

(** The generator of [Fixtures.schema] is fresh: its id is longer than every
    id of the table. *)
Lemma longerId_fresh : freshIds Fixtures.schema.
Proof.
  intros rows Hin. simpl in Hin.
  assert (Hlen : ∀ m, m ∈ rows →
            (String.length (MobileMessage.id m)
             < String.length (Fixtures.longerId rows))%nat).
  { clear Hin. unfold Fixtures.longerId. intros m Hm. simpl.
    induction rows as [|r rows IH]; [by apply elem_of_nil in Hm|].
    simpl. rewrite !string_length_append. simpl.
    apply elem_of_cons in Hm as [->|Hm]; [lia|].
    specialize (IH Hm). rewrite string_length_append in IH. simpl in IH. lia. }
  apply list_elem_of_fmap in Hin as (m & Hid & Hm).
  specialize (Hlen m Hm). rewrite <- Hid in Hlen. lia.
Qed.

(** The invariant on [Demo.dbWithWaiting]. *)
Lemma deliveryInvariant_kept_witness :
  Forall deliveryInvariant (mobileMessage Demo.dbWithWaiting)
  ∧ Forall deliveryInvariant
      (mobileMessage
         (deliverQueuedMessages Demo.schema "i1" "a1" Demo.dbWithWaiting).2).
Proof.
  assert (Hinv : Forall deliveryInvariant (mobileMessage Demo.dbWithWaiting)).
  { simpl. repeat constructor; simpl; try done. }
  split; [exact Hinv|].
  apply (deliveryInvariant_kept Demo.schema Demo.dbWithWaiting Hinv).
Defined.

(** X6. With a generator of fresh ids, the ids of the message table stay
    pairwise distinct through [createMessage], [deliverQueuedMessages],
    [acknowledgeMessage] and [deleteMessage]. *)
Theorem uniqueIds_kept (schema : Schema) (db : Db) :
  freshIds schema → uniqueIds db →
  (∀ eventId data, uniqueIds (createMessage schema eventId data db).2)
  ∧ (∀ inviteId attendeeId,
       uniqueIds (deliverQueuedMessages schema inviteId attendeeId db).2)
  ∧ (∀ messageId, uniqueIds (acknowledgeMessage schema messageId db).2)
  ∧ (∀ eventId id, uniqueIds (deleteMessage eventId id db).2).
Proof.
  unfold uniqueIds. intros Hfresh Hnd. repeat split.
  - intros eventId data.
    destruct (createMessage_rows schema eventId data db) as (ms & -> & Hgen & _).
    simpl. by apply (generated_NoDup schema).
  - intros inviteId attendeeId.
    destruct (decide (filter (pending inviteId) (mobileMessage db) = []))
      as [Hnone|Hsome].
    + by rewrite deliverQueuedMessages_none.
    + rewrite deliverQueuedMessages_some by done. simpl.
      rewrite <- list_fmap_compose.
      erewrite list_fmap_ext; [exact Hnd|]. intros i m _. simpl.
      destruct (decide (pending inviteId m)); [|done].
      by destruct (promote_promotedFrom schema attendeeId (clock db) m)
        as (_ & _ & _ & -> & _).
  - intros messageId.
    destruct (acknowledgeMessage_table schema messageId db)
      as [->|(pre & m & suf & Hl & _ & _ & ->)]; [done|].
    simpl. rewrite Hl in Hnd. rewrite fmap_app, fmap_cons in *.
    by destruct (applyData_set_unread schema (clock db) m) as (_ & -> & _).
  - intros eventId id.
    destruct (deleteMessage_table eventId id db)
      as [[_ ->]|(pre & m & suf & Hl & _ & _ & ->)]; [done|].
    simpl. rewrite Hl in Hnd. rewrite fmap_app in *. rewrite fmap_cons in Hnd.
    apply NoDup_app in Hnd as (Hpre & Hdisj & Hrest).
    apply NoDup_cons in Hrest as [_ Hsuf].
    apply NoDup_app. split; [done|split; [|done]].
    intros x Hx Hx'. apply (Hdisj x Hx). by right.
Qed.

(** A broadcast on [Demo.dbWithWaiting] with the generator of
    [Fixtures.schema]. *)
Lemma uniqueIds_kept_witness :
  freshIds Fixtures.schema
  ∧ uniqueIds Demo.dbWithWaiting
  ∧ uniqueIds
      (createMessage Fixtures.schema "E1" Fixtures.toAll Demo.dbWithWaiting).2.
Proof.
  assert (Hnd : uniqueIds Demo.dbWithWaiting).
  { unfold uniqueIds. simpl. apply (bool_decide_unpack _). by vm_compute. }
  split; [exact longerId_fresh|split; [exact Hnd|]].
  apply (uniqueIds_kept Fixtures.schema Demo.dbWithWaiting longerId_fresh Hnd).
Defined.

(** ** Reading back what was written *)

Lemma head_elem_of {A} (l : list A) (x : A) : head l = Some x → x ∈ l.
Proof. destruct l; [done|]. intros [= ->]. by left. Qed.

(** X7. With a generator of fresh ids, the message [createMessage] returns
    can be read back by its id through the event it was created in: the
    admin read returns the row, the recipient-facing read its DTO. *)
Theorem createMessage_read_back
    (schema : Schema) (eventId : string) (data : MessageData.t)
    (db db' : Db) (m : MobileMessage.t) :
  freshIds schema → uniqueIds db →
  createMessage schema eventId data db = (Returned (Some m), db') →
  getMessage eventId (MobileMessage.id m) db' = (Returned m, db')
  ∧ getMobileMessage eventId (MobileMessage.id m) db'
    = (Returned (mapMessageToDto m), db').
Proof.
  intros Hfresh Hnd Hrun.
  destruct (createMessage_rows schema eventId data db) as (ms & Hms & Hgen & He).
  rewrite Hms in Hrun. injection Hrun as Hhead <-.
  apply head_elem_of in Hhead as Hin.
  assert (Hev : MobileMessage.eventId m = eventId).
  { by apply (proj1 (Forall_forall _ _) He). }
  assert (Hfound :
    head (filter (λ x, MobileMessage.id x = MobileMessage.id m
                       ∧ MobileMessage.eventId x = eventId)
            (mobileMessage db ++ ms)) = Some m).
  { apply (head_filter_unique _ _ m).
    - by apply (generated_NoDup schema).
    - apply elem_of_app. by right.
    - done.
    - by intros x [? _]. }
  unfold getMessage, getMobileMessage. run. by rewrite Hfound.
Qed.

(** A direct message to [a1] on [Demo.dbWithWaiting]. *)
Lemma createMessage_read_back_witness :
  freshIds Fixtures.schema
  ∧ uniqueIds Demo.dbWithWaiting
  ∧ ∃ m db',
      createMessage Fixtures.schema "E1" Fixtures.toAttendee Demo.dbWithWaiting
      = (Returned (Some m), db')
      ∧ getMessage "E1" (MobileMessage.id m) db' = (Returned m, db')
      ∧ getMobileMessage "E1" (MobileMessage.id m) db'
        = (Returned (mapMessageToDto m), db').
Proof.
  assert (Hnd : uniqueIds Demo.dbWithWaiting).
  { unfold uniqueIds. simpl. apply (bool_decide_unpack _). by vm_compute. }
  split; [exact longerId_fresh|split; [exact Hnd|]].
  eexists _, _. split; [reflexivity|].
  apply (createMessage_read_back Fixtures.schema "E1" Fixtures.toAttendee
           Demo.dbWithWaiting _ _ longerId_fresh Hnd).
  reflexivity.
Defined.

Lemma head_filter_case {A} (P : A → Prop) `{∀ x, Decision (P x)} (l : list A) :
  (head (filter P l) = None ∧ Forall (λ x, ¬ P x) l)
  ∨ (∃ x, head (filter P l) = Some x ∧ x ∈ l ∧ P x).
Proof.
  induction l as [|y l IH]; [by left|].
  rewrite filter_cons. destruct (decide (P y)) as [Hy|Hy].
  - right. exists y. repeat split; [by left|done].
  - destruct IH as [[Hnone Hall]|(x & Hhd & Hin & Hx)].
    + left. split; [done|by constructor].
    + right. exists x. repeat split; [done|by right|done].
Qed.

(** X8. A read by id is scoped to the event of the route: it throws NotFound,
    leaving the database as it is, exactly when no message has both the id
    and the event; a message of another event is not found. *)
Theorem read_by_id_notFound (eventId id : string) (db : Db) :
  (Forall (λ m, ¬ (MobileMessage.id m = id ∧ MobileMessage.eventId m = eventId))
     (mobileMessage db)
   ↔ getMobileMessage eventId id db
     = (Thrown (NotFoundException "Message not found"), db))
  ∧ (Forall (λ m, ¬ (MobileMessage.id m = id ∧ MobileMessage.eventId m = eventId))
       (mobileMessage db)
     ↔ ∃ message,
         getMessage eventId id db = (Thrown (NotFoundException message), db)).
Proof.
  unfold getMobileMessage, getMessage. run.
  destruct (head_filter_case
              (λ m, MobileMessage.id m = id ∧ MobileMessage.eventId m = eventId)
              (mobileMessage db)) as [[-> Hall]|(x & -> & Hin & Hx)].
  - split; (split; [|done]); intros _; [done|by eexists].
  - assert (Hnot : ¬ Forall
      (λ m, ¬ (MobileMessage.id m = id ∧ MobileMessage.eventId m = eventId))
      (mobileMessage db)).
    { intros Hall. by apply (proj1 (Forall_forall _ _) Hall x Hin). }
    split; (split; [done|]); [done|by intros [? ?]].
Qed.

(** ** Promotion after fan-out *)

Lemma getMobileMessages_run (eventId : string) (attendeeId : option string)
    (db : Db) :
  ∃ msgs,
    getMobileMessages eventId attendeeId db =
      (Returned
         {| MobileMessagesResponseDto.data := mapMessageToDto <$> msgs;
            MobileMessagesResponseDto.total := length msgs;
            MobileMessagesResponseDto.page := 1;
            MobileMessagesResponseDto.pageSize := length msgs;
            MobileMessagesResponseDto.totalPages := 1 |}, db)
    ∧ msgs ≡ₚ filter (listed eventId attendeeId) (mobileMessage db)
    ∧ StronglySorted createdAtDesc msgs.
Proof.
  destruct (findManyNewestFirst_spec (whereClause eventId attendeeId) db)
    as (msgs & Hrun & Hperm & Hsorted).
  exists msgs. split; [|split; [|done]].
  - unfold getMobileMessages. unfold mbind at 1, M_bind. rewrite Hrun.
    run. by rewrite (Permutation_length Hperm).
  - rewrite Hperm. erewrite list_filter_iff; [done|].
    intros m. apply whereClause_listed.
Qed.

(** X9. Promotion makes a queued message visible: after
    [deliverQueuedMessages] for its invite and a (non-empty) attendee id,
    the promoted row of every message that was queued for the invite is in
    the attendee's listing of the message's event, and the count returned is
    positive. *)
Theorem promotion_makes_listed
    (schema : Schema) (inviteId attendeeId : string) (db : Db)
    (m : MobileMessage.t) :
  m ∈ mobileMessage db → pending inviteId m → attendeeId ≠ "" →
  ∃ n db' r m',
    deliverQueuedMessages schema inviteId attendeeId db = (Returned n, db')
    ∧ (0 < n)%nat
    ∧ promotedFrom schema attendeeId (clock db) m m'
    ∧ m' ∈ mobileMessage db'
    ∧ getMobileMessages (MobileMessage.eventId m) (Some attendeeId) db'
      = (Returned r, db')
    ∧ mapMessageToDto m' ∈ MobileMessagesResponseDto.data r.
Proof.
  intros Hin Hp Hne.
  assert (Hf : m ∈ filter (pending inviteId) (mobileMessage db))
    by by apply list_elem_of_filter.
  assert (Hsome : filter (pending inviteId) (mobileMessage db) ≠ []).
  { intros Hnil. rewrite Hnil in Hf. by apply elem_of_nil in Hf. }
  pose (m' := promote schema attendeeId (clock db) m).
  pose proof (promote_promotedFrom schema attendeeId (clock db) m) as Hprom.
  set (db' := with_mobileMessage db
    ((λ m, if decide (pending inviteId m)
           then promote schema attendeeId (clock db) m else m)
       <$> mobileMessage db)).
  assert (Hin' : m' ∈ mobileMessage db').
  { simpl. apply list_elem_of_fmap. exists m. split; [|done].
    by rewrite decide_True. }
  destruct (getMobileMessages_run (MobileMessage.eventId m) (Some attendeeId) db')
    as (msgs & Hrun & Hperm & _).
  eexists _, db', _, m'. split; [by apply deliverQueuedMessages_some|].
  split; [destruct (filter _ _); [done|simpl; lia]|].
  split; [exact Hprom|]. split; [exact Hin'|]. split; [exact Hrun|].
  simpl. apply list_elem_of_fmap_2. rewrite Hperm.
  apply list_elem_of_filter. split; [|exact Hin'].
  destruct Hprom as (Ha & Hd & _ & _ & He & _).
  split; [done|split; [done|by right]].
Qed.

(** The message [Demo.waiting], promoted for attendee [a1]. *)
Lemma promotion_makes_listed_witness :
  Demo.waiting ∈ mobileMessage Demo.dbWithWaiting
  ∧ pending "i1" Demo.waiting
  ∧ ∃ n db' r m',
      deliverQueuedMessages Demo.schema "i1" "a1" Demo.dbWithWaiting
      = (Returned n, db')
      ∧ (0 < n)%nat
      ∧ promotedFrom Demo.schema "a1" (clock Demo.dbWithWaiting) Demo.waiting m'
      ∧ m' ∈ mobileMessage db'
      ∧ getMobileMessages (MobileMessage.eventId Demo.waiting) (Some "a1") db'
        = (Returned r, db')
      ∧ mapMessageToDto m' ∈ MobileMessagesResponseDto.data r.
Proof.
  assert (Hin : Demo.waiting ∈ mobileMessage Demo.dbWithWaiting)
    by (simpl; do 2 constructor).
  assert (Hp : pending "i1" Demo.waiting) by (split; reflexivity).
  split; [exact Hin|split; [exact Hp|]].
  apply (promotion_makes_listed Demo.schema "i1" "a1" Demo.dbWithWaiting
           Demo.waiting Hin Hp).
  discriminate.
Defined.

(** Every broadcast, whatever its audience, appends delivered rows and then
    one queued row for each invite of the event. *)
Lemma broadcast_queues_invites
    (schema : Schema) (eventId : string) (data : MessageData.t) (db : Db) :
  isBroadcast data →
  ∃ r ds qs,
    createMessage schema eventId data db
    = (Returned r, with_mobileMessage db (mobileMessage db ++ ds ++ qs))
    ∧ Forall (λ m, MobileMessage.deliveryStatus m = delivered) ds
    ∧ Forall2 (queuedFor eventId data) (invitesOf db eventId) qs.
Proof.
  intros Hb.
  assert (Hfan : ∀ attendees, ∃ r ds qs,
            fanOut schema eventId data attendees db
            = (Returned r, with_mobileMessage db (mobileMessage db ++ ds ++ qs))
            ∧ Forall (λ m, MobileMessage.deliveryStatus m = delivered) ds
            ∧ Forall2 (queuedFor eventId data) (invitesOf db eventId) qs).
  { intros attendees.
    destruct (fanOut_creates schema eventId data attendees db)
      as (ds & qs & Hrun & Hds & Hqs).
    exists (head (ds ++ qs)), ds, qs. split; [done|split; [|done]].
    eapply Forall2_Forall_r; [exact Hds|]. apply Forall_forall.
    by intros a _ m (_ & _ & _ & _ & _ & ? & _). }
  unfold createMessage. rewrite (isBroadcast_guard data Hb).
  destruct Hb as (-> & -> & _). simpl.
  unfold mbind at 1, M_bind, findMany. fold (attendeesOf db eventId).
  destruct (strictEq (MessageData.audience data) "accepted").
  { rewrite orb_true_r. unfold mbind at 1, M_bind.
    rewrite acceptedAttendees_run. apply Hfan. }
  rewrite orb_false_r.
  destruct (strictEq (MessageData.audience data) "invited"); [|apply Hfan].
  destruct (promiseAllMap_creates (createForInvite schema eventId data)
              (λ _, queuedFor eventId data)
              (createForInvite_creates schema eventId data)
              (invitesOf db eventId) db) as (qs & Hqs & HRqs).
  exists (head qs), [], qs. split; [|by split].
  unfold mbind at 1, M_bind, findMany. fold (invitesOf db eventId).
  unfold mbind at 1, M_bind. by rewrite Hqs.
Qed.

Lemma queuedFor_pending_count eventId data inviteId invites qs :
  Forall2 (queuedFor eventId data) invites qs →
  length (filter (pending inviteId) qs)
  = length (filter (λ i, Invite.id i = inviteId) invites).
Proof.
  induction 1 as [|i m invites qs (_ & Hi & _ & _ & _ & Hq & _) _ IH]; [done|].
  rewrite !filter_cons.
  destruct (decide (Invite.id i = inviteId)) as [Heq|Hne].
  - rewrite decide_True; [simpl; by rewrite IH|]. split; [by rewrite Hi, Heq|done].
  - rewrite decide_False; [done|]. intros [Hinv _]. rewrite Hi in Hinv.
    by injection Hinv.
Qed.

Lemma delivered_not_pending inviteId ds :
  Forall (λ m, MobileMessage.deliveryStatus m = delivered) ds →
  filter (pending inviteId) ds = [].
Proof.
  induction 1 as [|m ds Hd _ IH]; [done|].
  rewrite filter_cons, IH, decide_False; [done|]. intros [_ Hq]. congruence.
Qed.

(** X10. No broadcast loses an invitee: after a broadcast of any audience,
    promoting an invite delivers the messages that were already queued for
    it plus one for each invite of the event with that id (so at least one
    for an invite of the event). *)
Theorem broadcast_then_promote
    (schema : Schema) (eventId : string) (data : MessageData.t) (db : Db) :
  isBroadcast data →
  ∃ r db',
    createMessage schema eventId data db = (Returned r, db')
    ∧ ∀ inviteId attendeeId,
        (deliverQueuedMessages schema inviteId attendeeId db').1
        = Returned
            (length (filter (pending inviteId) (mobileMessage db))
             + length (filter (λ i, Invite.id i = inviteId)
                         (invitesOf db eventId)))%nat.
Proof.
  intros Hb.
  destruct (broadcast_queues_invites schema eventId data db Hb)
    as (r & ds & qs & Hrun & Hds & Hqs).
  eexists _, _. split; [exact Hrun|]. intros inviteId attendeeId.
  assert (Hcount :
    length (filter (pending inviteId) (mobileMessage db ++ ds ++ qs))
    = (length (filter (pending inviteId) (mobileMessage db))
       + length (filter (λ i, Invite.id i = inviteId) (invitesOf db eventId)))%nat).
  { rewrite !filter_app, (delivered_not_pending _ _ Hds). simpl.
    by rewrite length_app, (queuedFor_pending_count _ _ _ _ _ Hqs). }
  rewrite <- Hcount.
  destruct (decide (filter (pending inviteId) (mobileMessage db ++ ds ++ qs) = []))
    as [Hnone|Hsome].
  - rewrite deliverQueuedMessages_none by done. by rewrite Hnone.
  - by rewrite deliverQueuedMessages_some.
Qed.

(** The broadcast of [Fixtures.toAll] on [Demo.db], then any promotion. *)
Lemma broadcast_then_promote_witness :
  isBroadcast Fixtures.toAll
  ∧ ∃ r db',
      createMessage Demo.schema "E1" Fixtures.toAll Demo.db = (Returned r, db')
      ∧ ∀ inviteId attendeeId,
          (deliverQueuedMessages Demo.schema inviteId attendeeId db').1
          = Returned
              (length (filter (pending inviteId) (mobileMessage Demo.db))
               + length (filter (λ i, Invite.id i = inviteId)
                           (invitesOf Demo.db "E1")))%nat.
Proof.
  assert (Hb : isBroadcast Fixtures.toAll)
    by (split; [reflexivity|split; [reflexivity|right; reflexivity]]).
  split; [exact Hb|].
  apply (broadcast_then_promote Demo.schema "E1" Fixtures.toAll Demo.db Hb).
Defined.

(** ** [sendMessage] *)

(** The rows [sendMessage] creates for the attendees: copies of a title, a
    body and attachments, marked 'sent' and unread, without a delivery
    time. *)
Lemma sendMessage_copies (schema : Schema) (eventId : string)
    (content : MessageContent) (attendees : list Attendee.t) (db : Db) :
  ∃ ms,
    promiseAllMap
      (λ attendee,
         create schema
           {| MobileMessageCreateInput.eventId := eventId;
              MobileMessageCreateInput.attendeeId := Some (Attendee.id attendee);
              MobileMessageCreateInput.inviteId := None;
              MobileMessageCreateInput.title := contentTitle content;
              MobileMessageCreateInput.body := contentBody content;
              MobileMessageCreateInput.attachments := contentAttachments content;
              MobileMessageCreateInput.status := "sent";
              MobileMessageCreateInput.deliveryStatus := None;
              MobileMessageCreateInput.unread := true;
              MobileMessageCreateInput.deliveredAt := None |})
      attendees db
    = (Returned ms, with_mobileMessage db (mobileMessage db ++ ms))
    ∧ Forall2
        (λ a m, MobileMessage.eventId m = eventId
                ∧ MobileMessage.attendeeId m = Some (Attendee.id a)
                ∧ MobileMessage.inviteId m = None
                ∧ MobileMessage.title m = contentTitle content
                ∧ MobileMessage.body m = contentBody content
                ∧ MobileMessage.attachments m = contentAttachments content
                ∧ MobileMessage.status m = "sent"
                ∧ MobileMessage.unread m = true
                ∧ MobileMessage.deliveredAt m = None)
        attendees ms.
Proof.
  match goal with
  | |- context [promiseAllMap ?f _] =>
      apply (promiseAllMap_creates f
        (λ _ a m, MobileMessage.eventId m = eventId
                  ∧ MobileMessage.attendeeId m = Some (Attendee.id a)
                  ∧ MobileMessage.inviteId m = None
                  ∧ MobileMessage.title m = contentTitle content
                  ∧ MobileMessage.body m = contentBody content
                  ∧ MobileMessage.attachments m = contentAttachments content
                  ∧ MobileMessage.status m = "sent"
                  ∧ MobileMessage.unread m = true
                  ∧ MobileMessage.deliveredAt m = None))
  end.
  intros a db0. eexists. split; [reflexivity|]. by repeat split.
Qed.

(** X11. Sending an existing message copies it to every attendee of the
    event and to nobody else: one new row per attendee with the title and
    body of the message, marked 'sent' and unread; the message itself and
    the other tables are as before, no row is created for an invite, and
    the first copy is returned (the message itself when the event has no
    attendee). *)
Theorem sendMessage_copies_message
    (schema : Schema) (eventId messageId : string) (db : Db)
    (message : MobileMessage.t) :
  head (filter (λ m, MobileMessage.id m = messageId
                     ∧ MobileMessage.eventId m = eventId) (mobileMessage db))
  = Some message →
  ∃ ms,
    sendMessage schema eventId messageId db
    = (Returned (match head ms with Some m => Some m | None => Some message end),
       with_mobileMessage db (mobileMessage db ++ ms))
    ∧ Forall2
        (λ a m, MobileMessage.eventId m = eventId
                ∧ MobileMessage.attendeeId m = Some (Attendee.id a)
                ∧ MobileMessage.inviteId m = None
                ∧ MobileMessage.title m = MobileMessage.title message
                ∧ MobileMessage.body m = MobileMessage.body message
                ∧ MobileMessage.status m = "sent"
                ∧ MobileMessage.unread m = true)
        (attendeesOf db eventId) ms.
Proof.
  intros Hfound.
  destruct (sendMessage_copies schema eventId
              {| contentTitle := MobileMessage.title message;
                 contentBody := MobileMessage.body message;
                 contentAttachments :=
                   orEmptyObject (Some (MobileMessage.attachments message)) |}
              (attendeesOf db eventId) db) as (ms & Hms & HR).
  exists ms. split.
  - unfold sendMessage.
    unfold mbind at 1, M_bind, findFirst. rewrite Hfound.
    unfold mbind at 1, M_bind. unfold mret at 1, M_ret.
    unfold mbind at 1, M_bind, findMany. fold (attendeesOf db eventId).
    unfold mbind at 1, M_bind. by rewrite Hms.
  - eapply Forall2_impl; [exact HR|]. simpl. intros a m. tauto.
Qed.

(** The draft [msg-0] of [Demo.dbWithDraft], sent to the event. *)
Lemma sendMessage_copies_message_witness :
  ∃ ms,
    sendMessage Demo.schema "E1" "msg-0" Demo.dbWithDraft
    = (Returned (match head ms with Some m => Some m | None => Some Demo.draft end),
       with_mobileMessage Demo.dbWithDraft (mobileMessage Demo.dbWithDraft ++ ms))
    ∧ Forall2
        (λ a m, MobileMessage.eventId m = "E1"
                ∧ MobileMessage.attendeeId m = Some (Attendee.id a)
                ∧ MobileMessage.inviteId m = None
                ∧ MobileMessage.title m = MobileMessage.title Demo.draft
                ∧ MobileMessage.body m = MobileMessage.body Demo.draft
                ∧ MobileMessage.status m = "sent"
                ∧ MobileMessage.unread m = true)
        (attendeesOf Demo.dbWithDraft "E1") ms.
Proof.
  apply (sendMessage_copies_message Demo.schema "E1" "msg-0" Demo.dbWithDraft
           Demo.draft).
  reflexivity.
Defined.

(** X12. Sending a broadcast (an id that is no message of the event but a
    broadcast of it) marks the first broadcast of that id as 'sent' with the
    current time and creates one row per attendee of the event with the
    title of the broadcast and its HTML body; it returns the first row, or
    nothing when the event has no attendee. *)
Theorem sendMessage_sends_broadcast
    (schema : Schema) (eventId messageId : string) (db : Db) (b : Broadcast.t) :
  head (filter (λ m, MobileMessage.id m = messageId
                     ∧ MobileMessage.eventId m = eventId) (mobileMessage db))
  = None →
  head (filter (λ b, Broadcast.id b = messageId ∧ Broadcast.eventId b = eventId)
          (broadcast db))
  = Some b →
  ∃ pre b' suf ms,
    broadcast db = pre ++ b' :: suf
    ∧ Broadcast.id b' = messageId
    ∧ Forall (λ x, Broadcast.id x ≠ messageId) pre
    ∧ sendMessage schema eventId messageId db
      = (Returned (head ms),
         with_mobileMessage
           (with_broadcast db
              (pre ++ set_sentAt (Some (clock db)) (set_status "sent" b') :: suf))
           (mobileMessage db ++ ms))
    ∧ Forall2
        (λ a m, MobileMessage.eventId m = eventId
                ∧ MobileMessage.attendeeId m = Some (Attendee.id a)
                ∧ MobileMessage.inviteId m = None
                ∧ MobileMessage.title m = Broadcast.title b
                ∧ MobileMessage.body m = Broadcast.bodyHtml b
                ∧ MobileMessage.attachments m = JObj []
                ∧ MobileMessage.status m = "sent"
                ∧ MobileMessage.unread m = true)
        (attendeesOf db eventId) ms.
Proof.
  intros Hnone Hb.
  destruct (updateUnique_case (λ x, Broadcast.id x = messageId)
              (λ x, set_sentAt (Some (clock db)) (set_status "sent" x))
              (broadcast db))
    as [[Hall _]|(pre & b' & suf & Hl & Hb' & Hpre & Hhd & Hupd)].
  { exfalso. apply head_elem_of, list_elem_of_filter in Hb as [[Hid _] Hin].
    by apply (proj1 (Forall_forall _ _) Hall b Hin). }
  set (db1 := with_broadcast db
    (pre ++ set_sentAt (Some (clock db)) (set_status "sent" b') :: suf)).
  destruct (sendMessage_copies schema eventId
              {| contentTitle := Broadcast.title b;
                 contentBody := Broadcast.bodyHtml b;
                 contentAttachments := JObj [] |}
              (attendeesOf db eventId) db1) as (ms & Hms & HR).
  exists pre, b', suf, ms. repeat split; try done.
  - unfold sendMessage.
    unfold mbind at 1, M_bind, findFirst. rewrite Hnone.
    unfold mbind at 1, M_bind.
    unfold mbind at 1, M_bind. rewrite Hb.
    unfold mbind at 1, M_bind, newDate.
    unfold mbind at 1, M_bind, updateBroadcast. rewrite Hhd, Hupd.
    fold db1. unfold mret at 1, M_ret.
    unfold mbind at 1, M_bind, findMany.
    change (filter (λ a, Attendee.eventId a = eventId) (attendee db1))
      with (attendeesOf db eventId).
    unfold mbind at 1, M_bind. rewrite Hms. by destruct ms.
  - eapply Forall2_impl; [exact HR|]. simpl. intros a m. tauto.
Qed.

(** The broadcast [b1] of [Fixtures.dbLaunch]. *)
Lemma sendMessage_sends_broadcast_witness :
  ∃ pre b' suf ms,
    broadcast Fixtures.dbLaunch = pre ++ b' :: suf
    ∧ Broadcast.id b' = "b1"
    ∧ Forall (λ x, Broadcast.id x ≠ "b1") pre
    ∧ sendMessage Demo.schema "E1" "b1" Fixtures.dbLaunch
      = (Returned (head ms),
         with_mobileMessage
           (with_broadcast Fixtures.dbLaunch
              (pre ++ set_sentAt (Some (clock Fixtures.dbLaunch))
                        (set_status "sent" b') :: suf))
           (mobileMessage Fixtures.dbLaunch ++ ms))
    ∧ Forall2
        (λ a m, MobileMessage.eventId m = "E1"
                ∧ MobileMessage.attendeeId m = Some (Attendee.id a)
                ∧ MobileMessage.inviteId m = None
                ∧ MobileMessage.title m = Broadcast.title Fixtures.launch
                ∧ MobileMessage.body m = Broadcast.bodyHtml Fixtures.launch
                ∧ MobileMessage.attachments m = JObj []
                ∧ MobileMessage.status m = "sent"
                ∧ MobileMessage.unread m = true)
        (attendeesOf Fixtures.dbLaunch "E1") ms.
Proof.
  apply (sendMessage_sends_broadcast Demo.schema "E1" "b1" Fixtures.dbLaunch
           Fixtures.launch); reflexivity.
Defined.

(** On a broadcast of the event, [sendMessage] returns. *)
Lemma sendMessage_sends_broadcast_run
    (schema : Schema) (eventId messageId : string) (db : Db) (b : Broadcast.t) :
  head (filter (λ m, MobileMessage.id m = messageId
                     ∧ MobileMessage.eventId m = eventId) (mobileMessage db))
  = None →
  head (filter (λ b, Broadcast.id b = messageId ∧ Broadcast.eventId b = eventId)
          (broadcast db))
  = Some b →
  ∃ r db', sendMessage schema eventId messageId db = (Returned r, db').
Proof.
  intros Hnone Hb.
  destruct (updateUnique_case (λ x, Broadcast.id x = messageId)
              (λ x, set_sentAt (Some (clock db)) (set_status "sent" x))
              (broadcast db))
    as [[Hall _]|(pre & b' & suf & Hl & Hb' & Hpre & Hhd & Hupd)].
  { exfalso. apply head_elem_of, list_elem_of_filter in Hb as [[Hid _] Hin].
    by apply (proj1 (Forall_forall _ _) Hall b Hin). }
  set (db1 := with_broadcast db
    (pre ++ set_sentAt (Some (clock db)) (set_status "sent" b') :: suf)).
  destruct (sendMessage_copies schema eventId
              {| contentTitle := Broadcast.title b;
                 contentBody := Broadcast.bodyHtml b;
                 contentAttachments := JObj [] |}
              (attendeesOf db eventId) db1) as (ms & Hms & HR).
  eexists _, _. unfold sendMessage.
  unfold mbind at 1, M_bind, findFirst. rewrite Hnone.
  unfold mbind at 1, M_bind.
  unfold mbind at 1, M_bind. rewrite Hb.
  unfold mbind at 1, M_bind, newDate.
  unfold mbind at 1, M_bind, updateBroadcast. rewrite Hhd, Hupd.
  fold db1. unfold mret at 1, M_ret.
  unfold mbind at 1, M_bind, findMany.
  change (filter (λ a, Attendee.eventId a = eventId) (attendee db1))
    with (attendeesOf db eventId).
  unfold mbind at 1, M_bind. by rewrite Hms.
Qed.

(** X13. [sendMessage] throws NotFound, and writes nothing, exactly when the
    id is neither a message nor a broadcast of the event. *)
Theorem sendMessage_notFound
    (schema : Schema) (eventId messageId : string) (db : Db) :
  (Forall (λ m, ¬ (MobileMessage.id m = messageId
                   ∧ MobileMessage.eventId m = eventId)) (mobileMessage db)
   ∧ Forall (λ b, ¬ (Broadcast.id b = messageId
                     ∧ Broadcast.eventId b = eventId)) (broadcast db))
  ↔ ∃ message,
      sendMessage schema eventId messageId db
      = (Thrown (NotFoundException message), db).
Proof.
  destruct (head_filter_case
              (λ m, MobileMessage.id m = messageId
                    ∧ MobileMessage.eventId m = eventId) (mobileMessage db))
    as [[Hnone Hall]|(m & Hm & Hin & HPm)].
  - destruct (head_filter_case
                (λ b, Broadcast.id b = messageId ∧ Broadcast.eventId b = eventId)
                (broadcast db))
      as [[Hbnone Hball]|(b & Hb & Hbin & HPb)].
    + split; [intros _|done]. eexists. unfold sendMessage.
      unfold mbind at 1, M_bind, findFirst. rewrite Hnone.
      unfold mbind at 1, M_bind.
      unfold mbind at 1, M_bind. by rewrite Hbnone.
    + destruct (sendMessage_sends_broadcast_run schema eventId messageId db b
                  Hnone Hb) as (r & db' & Hrun).
      split.
      * intros [_ Hbs]. exfalso.
        by apply (proj1 (Forall_forall _ _) Hbs b Hbin).
      * intros [msg Hthrow]. rewrite Hrun in Hthrow. discriminate.
  - destruct (sendMessage_rows schema eventId messageId db m Hm)
      as (ms & Hrun & _).
    split.
    + intros [Hms _]. exfalso. by apply (proj1 (Forall_forall _ _) Hms m Hin).
    + intros [msg Hthrow]. rewrite Hrun in Hthrow. discriminate.
Qed.

(** ** Writes by id *)

Lemma head_filter_first {A} (P : A → Prop) `{∀ x, Decision (P x)}
    (pre suf : list A) (x : A) :
  Forall (λ y, ¬ P y) pre → P x → head (filter P (pre ++ x :: suf)) = Some x.
Proof.
  intros Hpre Hx. induction Hpre as [|y pre Hy _ IH]; simpl.
  - by rewrite filter_cons, decide_True.
  - by rewrite filter_cons, decide_False.
Qed.

Lemma updateUnique_first {A} (P : A → Prop) `{∀ x, Decision (P x)}
    (f : A → A) (pre suf : list A) (x : A) :
  Forall (λ y, ¬ P y) pre → P x →
  updateUnique P f (pre ++ x :: suf) = pre ++ f x :: suf.
Proof.
  intros Hpre Hx. induction Hpre as [|y pre Hy _ IH]; simpl.
  - by rewrite decide_True.
  - by rewrite decide_False, IH.
Qed.



(** X16. With distinct ids, a deleted message is gone from every event: once
    [deleteMessage] has returned, reading the id through any event throws
    NotFound. *)
Theorem deleteMessage_then_read
    (eventId id : string) (db db' : Db) :
  uniqueIds db →
  deleteMessage eventId id db = (Returned (), db') →
  ∀ eventId',
    getMobileMessage eventId' id db'
    = (Thrown (NotFoundException "Message not found"), db').
Proof.
  intros Hnd Hrun eventId'.
  destruct (deleteMessage_table eventId id db)
    as [[_ Hthrow]|(pre & m & suf & Hl & Hm & Hpre & Hdel)];
    [rewrite Hthrow in Hrun; discriminate|].
  rewrite Hdel in Hrun. injection Hrun as <-.
  unfold uniqueIds in Hnd. rewrite Hl, fmap_app, fmap_cons in Hnd.
  apply NoDup_app in Hnd as (_ & Hdisj & Hrest).
  apply NoDup_cons in Hrest as [Hm' _].
  unfold getMobileMessage. run.
  destruct (head_filter_case
              (λ x, MobileMessage.id x = id ∧ MobileMessage.eventId x = eventId')
              (pre ++ suf)) as [[-> _]|(x & _ & Hin & [Hid _])]; [done|].
  exfalso. apply elem_of_app in Hin as [Hin|Hin].
  - by apply (proj1 (Forall_forall _ _) Hpre x Hin).
  - apply Hm'. rewrite Hm, <- Hid. by apply list_elem_of_fmap_2.
Qed.

(** Deleting [msg-7] from [Demo.dbWithWaiting]. *)
Lemma deleteMessage_then_read_witness :
  uniqueIds Demo.dbWithWaiting
  ∧ ∃ db',
      deleteMessage "E9" "msg-7" Demo.dbWithWaiting = (Returned (), db')
      ∧ ∀ eventId',
          getMobileMessage eventId' "msg-7" db'
          = (Thrown (NotFoundException "Message not found"), db').
Proof.
  assert (Hnd : uniqueIds Demo.dbWithWaiting).
  { unfold uniqueIds. simpl. apply (bool_decide_unpack _). by vm_compute. }
  split; [exact Hnd|]. eexists. split; [reflexivity|].
  apply (deleteMessage_then_read "E9" "msg-7" Demo.dbWithWaiting _ Hnd).
  reflexivity.
Defined.

Lemma applyData_set_unread_twice (schema : Schema) (now : Date)
    (m : MobileMessage.t) :
  applyData schema (set_unread false) now
    (applyData schema (set_unread false) now m)
  = applyData schema (set_unread false) now m.
Proof. unfold applyData. by destruct m, (refreshesUpdatedAt schema). Qed.

(** X17. Acknowledging is idempotent: acknowledging the same id again, at
    the same instant, ends as the first call did (ok, or NotFound) and
    leaves the database as the first call left it. *)
Theorem acknowledgeMessage_idempotent
    (schema : Schema) (messageId : string) (db : Db) :
  acknowledgeMessage schema messageId (acknowledgeMessage schema messageId db).2
  = acknowledgeMessage schema messageId db.
Proof.
  destruct (acknowledgeMessage_table schema messageId db)
    as [Hsame|(pre & m & suf & Hl & Hm & Hpre & Hrun)].
  - by rewrite Hsame.
  - rewrite Hrun. simpl.
    set (m1 := applyData schema (set_unread false) (clock db) m).
    assert (Hm1 : MobileMessage.id m1 = messageId).
    { unfold m1. by destruct (applyData_set_unread schema (clock db) m)
        as (_ & -> & _). }
    unfold acknowledgeMessage, update. run.
    rewrite (head_filter_first _ pre suf m1) by done. simpl.
    rewrite (head_filter_first _ pre suf m1) by done.
    rewrite (updateUnique_first _ _ pre suf m1) by done.
    unfold m1. by rewrite applyData_set_unread_twice.
Qed.

(** ** The attendee of an email *)

Section AttendeeByEmailFacts.
Variable lookup : Lookup.
Variables eventId email : string.

Lemma findInvite_spec (emailStr : string) (db : Db) :
  ∃ found,
    findInvite lookup eventId emailStr db = (Returned found, db)
    ∧ match found with
      | Some i => i ∈ invite db ∧ inviteMatches lookup emailStr i
      | None => Forall (λ i, ¬ inviteMatches lookup emailStr i) (invite db)
      end.
Proof.
  unfold findInvite. run.
  destruct (head_filter_case
              (λ i, Invite.email i = emailStr ∧ Invite.eventId i = eventId)
              (invite db)) as [[-> _]|(i & -> & Hin & [Hi _])].
  2:{ exists (Some i). split; [done|]. split; [done|by left]. }
  simpl.
  destruct (head_filter_case
              (λ i, Invite.eventId i = eventId
                    ∧ equalsInsensitive lookup (Invite.email i) emailStr = true)
              (invite db)) as [[-> _]|(i & -> & Hin & [_ Hi])].
  2:{ exists (Some i). split; [done|]. split; [done|by right]. }
  simpl.
  destruct (head_filter_case (λ i, Invite.email i = emailStr) (invite db))
    as [[-> Hexact]|(i & -> & Hin & Hi)].
  2:{ exists (Some i). split; [done|]. split; [done|by left]. }
  simpl.
  destruct (head_filter_case
              (λ i, equalsInsensitive lookup (Invite.email i) emailStr = true)
              (invite db)) as [[-> Hins]|(i & -> & Hin & Hi)].
  2:{ exists (Some i). split; [done|]. split; [done|by right]. }
  exists None. split; [done|].
  apply Forall_forall. intros i Hin [Hi|Hi].
  - by apply (proj1 (Forall_forall _ _) Hexact i Hin).
  - by apply (proj1 (Forall_forall _ _) Hins i Hin).
Qed.

(** The three ways [getAttendeeByEmail] ends. *)
Lemma getAttendeeByEmail_cases (db : Db) :
  (∃ a, getAttendeeByEmail lookup eventId email db = (Returned a, db)
        ∧ a ∈ attendee db
        ∧ attendeeMatches lookup eventId (trim lookup email) a)
  ∨ (Forall (λ a, ¬ attendeeMatches lookup eventId (trim lookup email) a)
       (attendee db)
     ∧ Forall (λ i, ¬ inviteMatches lookup (trim lookup email) i) (invite db)
     ∧ getAttendeeByEmail lookup eventId email db
       = (Thrown
            (NotFoundException
               (String.append "No invite found for email: "
                  (String.append email
                     ". Please ensure you have been invited to an event."))),
          db))
  ∨ (Forall (λ a, ¬ attendeeMatches lookup eventId (trim lookup email) a)
       (attendee db)
     ∧ (∃ i, i ∈ invite db ∧ inviteMatches lookup (trim lookup email) i)
     ∧ getAttendeeByEmail lookup eventId email db
       = (let a := {| Attendee.id := attendeeCuid lookup (attendee db);
                      Attendee.eventId := eventId;
                      Attendee.email := trim lookup email;
                      Attendee.acceptedAt := None |} in
          (Returned a, with_attendee db (attendee db ++ [a])))).
Proof.
  remember (getAttendeeByEmail lookup eventId email db) as out eqn:Hout.
  unfold getAttendeeByEmail in Hout. cbv zeta in Hout.
  unfold mbind at 1, M_bind, findFirst in Hout.
  destruct (head_filter_case
              (λ a, Attendee.email a = trim lookup email
                    ∧ Attendee.eventId a = eventId)
              (attendee db)) as [[Hnone Hexact]|(a & Hsome & Hin & [Ha He])].
  2:{ left. exists a. rewrite Hsome in Hout.
      split; [done|]. split; [done|]. split; [done|by left]. }
  rewrite Hnone in Hout.
  unfold mbind at 1, M_bind in Hout.
  unfold mbind at 1, M_bind, findMany in Hout.
  unfold mret at 1, M_ret in Hout.
  destruct (head_filter_case
              (λ a, Attendee.eventId a = eventId
                    ∧ equalsInsensitive lookup (Attendee.email a)
                        (trim lookup email) = true)
              (attendee db)) as [[Hnone' Hins]|(a & Hsome & Hin & [He Ha])].
  2:{ left. exists a. rewrite Hsome in Hout.
      split; [done|]. split; [done|]. split; [done|by right]. }
  rewrite Hnone' in Hout.
  assert (Hnomatch :
    Forall (λ a, ¬ attendeeMatches lookup eventId (trim lookup email) a)
      (attendee db)).
  { apply Forall_forall. intros a Hin [He [Ha|Ha]].
    - by apply (proj1 (Forall_forall _ _) Hexact a Hin).
    - by apply (proj1 (Forall_forall _ _) Hins a Hin). }
  right.
  destruct (findInvite_spec (trim lookup email) db) as (found & Hrun & Hfound).
  unfold mbind at 1, M_bind in Hout. rewrite Hrun in Hout.
  destruct found as [i|].
  - right. split; [done|]. split; [by exists i|].
    unfold mbind at 1, M_bind, findFirst in Hout. by rewrite Hnone in Hout.
  - left. by repeat split.
Qed.

End AttendeeByEmailFacts.

(** X18. [getAttendeeByEmail] resolves an email within the requested event:
    it returns an attendee of that event whose email matches (exactly or
    case-insensitively) without writing; failing that, if some invite of any
    event matches the email, it creates an attendee in the requested event;
    and it throws NotFound, writing nothing, when neither an attendee of the
    event nor an invite matches.  The attendee it returns is always a row of
    the requested event, and messages and invites are never touched. *)
Theorem getAttendeeByEmail_outcome
    (lookup : Lookup) (eventId email : string) (db : Db) :
  match getAttendeeByEmail lookup eventId email db with
  | (Returned a, db') =>
      Attendee.eventId a = eventId
      ∧ a ∈ attendee db'
      ∧ invite db' = invite db
      ∧ mobileMessage db' = mobileMessage db
      ∧ broadcast db' = broadcast db
      ∧ ((db' = db ∧ attendeeMatches lookup eventId (trim lookup email) a)
         ∨ (attendee db' = attendee db ++ [a]
            ∧ Attendee.email a = trim lookup email
            ∧ Attendee.acceptedAt a = None
            ∧ Forall (λ a, ¬ attendeeMatches lookup eventId (trim lookup email) a)
                (attendee db)
            ∧ ∃ i, i ∈ invite db ∧ inviteMatches lookup (trim lookup email) i))
  | (Thrown e, db') =>
      db' = db
      ∧ (∃ message, e = NotFoundException message)
      ∧ Forall (λ a, ¬ attendeeMatches lookup eventId (trim lookup email) a)
          (attendee db)
      ∧ Forall (λ i, ¬ inviteMatches lookup (trim lookup email) i) (invite db)
  end.
Proof.
  destruct (getAttendeeByEmail_cases lookup eventId email db)
    as [(a & -> & Hin & Hmatch)|[(Hatt & Hinv & ->)|(Hatt & Hinv & ->)]].
  - destruct Hmatch as [He Hm]. repeat split; try done. left. by split.
  - repeat split; try done. by eexists.
  - simpl. repeat split; try done.
    + apply elem_of_app. right. by left.
    + right. by repeat split.
Qed.

(** X19. An invite to any event opens the requested one: when no attendee of
    the requested event matches the email and some invite matches it, in
    whatever event, [getAttendeeByEmail] creates an attendee with that email
    in the requested event and returns it. *)
Theorem getAttendeeByEmail_creates_from_any_invite
    (lookup : Lookup) (eventId email : string) (db : Db) (i : Invite.t) :
  Forall (λ a, ¬ attendeeMatches lookup eventId (trim lookup email) a)
    (attendee db) →
  i ∈ invite db → inviteMatches lookup (trim lookup email) i →
  ∃ a,
    getAttendeeByEmail lookup eventId email db
    = (Returned a, with_attendee db (attendee db ++ [a]))
    ∧ Attendee.eventId a = eventId
    ∧ Attendee.email a = trim lookup email
    ∧ Attendee.acceptedAt a = None.
Proof.
  intros Hatt Hin Hi.
  destruct (getAttendeeByEmail_cases lookup eventId email db)
    as [(a & _ & Ha & Hmatch)|[(_ & Hinv & _)|(_ & _ & ->)]].
  - exfalso. by apply (proj1 (Forall_forall _ _) Hatt a Ha).
  - exfalso. by apply (proj1 (Forall_forall _ _) Hinv i Hin).
  - by eexists.
Qed.

(** Carol, invited to E2 only, asks for E1. *)
Lemma getAttendeeByEmail_creates_from_any_invite_witness :
  Fixtures.carolInvite ∈ invite Fixtures.dbCarol
  ∧ Invite.eventId Fixtures.carolInvite = "E2"
  ∧ ∃ a,
      getAttendeeByEmail Fixtures.lookup "E1" "carol@example.com" Fixtures.dbCarol
      = (Returned a,
         with_attendee Fixtures.dbCarol (attendee Fixtures.dbCarol ++ [a]))
      ∧ Attendee.eventId a = "E1"
      ∧ Attendee.email a = trim Fixtures.lookup "carol@example.com"
      ∧ Attendee.acceptedAt a = None.
Proof.
  assert (Hin : Fixtures.carolInvite ∈ invite Fixtures.dbCarol)
    by (simpl; constructor).
  split; [exact Hin|split; [reflexivity|]].
  apply (getAttendeeByEmail_creates_from_any_invite Fixtures.lookup "E1"
           "carol@example.com" Fixtures.dbCarol Fixtures.carolInvite);
    [simpl; constructor|exact Hin|left; reflexivity].
Defined.

(** ** The message list of an email *)

(** X20. The message list of an email: the handler refuses a missing or
    empty email with BadRequest before reading anything; it fails as
    [getAttendeeByEmail] fails; otherwise it returns the DTOs of exactly the
    delivered messages of the event addressed to the attendee resolved from
    the email (a row of that event), newest first, none of them queued. *)
Theorem getMobileMessages_of_email
    (lookup : Lookup) (eventId : string) (email : option string) (db : Db) :
  match MobileMessagesRoute.getMobileMessages lookup eventId email db with
  | (BadRequestException message, db') =>
      db' = db ∧ truthyId email = false
      ∧ message = "Email parameter is required"
  | (Failed e, db') =>
      ∃ s, email = Some s ∧ s ≠ ""
           ∧ getAttendeeByEmail lookup eventId s db = (Thrown e, db')
  | (Ok r, db') =>
      ∃ s a msgs,
        email = Some s ∧ s ≠ ""
        ∧ getAttendeeByEmail lookup eventId s db = (Returned a, db')
        ∧ Attendee.eventId a = eventId
        ∧ MobileMessagesResponseDto.data r = mapMessageToDto <$> msgs
        ∧ MobileMessagesResponseDto.total r = length msgs
        ∧ msgs ≡ₚ filter (listed eventId (Some (Attendee.id a))) (mobileMessage db)
        ∧ StronglySorted createdAtDesc msgs
        ∧ Forall (λ m, MobileMessage.deliveryStatus m ≠ queued) msgs
  end.
Proof.
  unfold MobileMessagesRoute.getMobileMessages.
  destruct email as [s|]; [|done].
  case_bool_decide as Hs; [by subst s|].
  assert (Hlist : ∀ a db',
    getAttendeeByEmail lookup eventId s db = (Returned a, db') →
    Attendee.eventId a = eventId → mobileMessage db' = mobileMessage db →
    match
      match getMobileMessages eventId (Some (Attendee.id a)) db' with
      | (Thrown err, db'') => (Failed err, db'')
      | (Returned r, db'') => (Ok r, db'')
      end
    with
    | (BadRequestException message, db'') =>
        db'' = db ∧ truthyId (Some s) = false
        ∧ message = "Email parameter is required"
    | (Failed e, db'') =>
        ∃ s0, Some s = Some s0 ∧ s0 ≠ ""
              ∧ getAttendeeByEmail lookup eventId s0 db = (Thrown e, db'')
    | (Ok r, db'') =>
        ∃ s0 a0 msgs,
          Some s = Some s0 ∧ s0 ≠ ""
          ∧ getAttendeeByEmail lookup eventId s0 db = (Returned a0, db'')
          ∧ Attendee.eventId a0 = eventId
          ∧ MobileMessagesResponseDto.data r = mapMessageToDto <$> msgs
          ∧ MobileMessagesResponseDto.total r = length msgs
          ∧ msgs ≡ₚ filter (listed eventId (Some (Attendee.id a0)))
                      (mobileMessage db)
          ∧ StronglySorted createdAtDesc msgs
          ∧ Forall (λ m, MobileMessage.deliveryStatus m ≠ queued) msgs
    end).
  { intros a db' Hrun He Hmsgs.
    destruct (getMobileMessages_run eventId (Some (Attendee.id a)) db')
      as (msgs & -> & Hperm & Hsorted).
    rewrite Hmsgs in Hperm.
    exists s, a, msgs. repeat split; try done.
    apply Forall_forall. intros m Hm. rewrite Hperm in Hm.
    apply list_elem_of_filter in Hm as [(_ & Hd & _) _]. by rewrite Hd. }
  destruct (getAttendeeByEmail_cases lookup eventId s db)
    as [(a & Hrun & _ & [He _])|[(_ & _ & Hrun)|(_ & _ & Hrun)]].
  - rewrite Hrun. by apply Hlist.
  - rewrite Hrun. by exists s.
  - cbv zeta in Hrun. rewrite Hrun. by apply Hlist.
Qed.

(** ** Edges of the broadcast *)

Lemma fanOut_nothing
    (schema : Schema) (eventId : string) (data : MessageData.t) (db : Db) :
  invitesOf db eventId = [] →
  fanOut schema eventId data [] db = (Returned None, db).
Proof.
  intros Hinv. unfold fanOut. simpl.
  unfold mbind at 1, M_bind. unfold mret at 1, M_ret.
  unfold mbind at 1, M_bind, findMany. fold (invitesOf db eventId).
  by rewrite Hinv.
Qed.

(** X21. A broadcast to an event without attendees and without invites is a
    no-op, not an error: whatever the audience, [createMessage] returns no
    message and leaves the database as it is. *)
Theorem createMessage_empty_event
    (schema : Schema) (eventId : string) (data : MessageData.t) (db : Db) :
  isBroadcast data →
  attendeesOf db eventId = [] → invitesOf db eventId = [] →
  createMessage schema eventId data db = (Returned None, db).
Proof.
  intros Hb Hatt Hinv.
  unfold createMessage. rewrite (isBroadcast_guard data Hb).
  destruct Hb as (-> & -> & _). simpl.
  unfold mbind at 1, M_bind, findMany. fold (attendeesOf db eventId).
  rewrite Hatt.
  destruct (strictEq (MessageData.audience data) "accepted").
  { rewrite orb_true_r. unfold mbind at 1, M_bind.
    change (acceptedAttendees eventId [] db) with (@mret M _ _ (@nil Attendee.t) db).
    by apply fanOut_nothing. }
  rewrite orb_false_r.
  destruct (strictEq (MessageData.audience data) "invited");
    [|by apply fanOut_nothing].
  unfold mbind at 1, M_bind, findMany. fold (invitesOf db eventId).
  by rewrite Hinv.
Qed.

(** A broadcast to the event [E7], which nobody attends or is invited to. *)
Lemma createMessage_empty_event_witness :
  isBroadcast Fixtures.toAll
  ∧ attendeesOf Demo.db "E7" = []
  ∧ createMessage Demo.schema "E7" Fixtures.toAll Demo.db
    = (Returned None, Demo.db).
Proof.
  assert (Hb : isBroadcast Fixtures.toAll)
    by (split; [reflexivity|split; [reflexivity|right; reflexivity]]).
  split; [exact Hb|split; [reflexivity|]].
  apply (createMessage_empty_event Demo.schema "E7" Fixtures.toAll Demo.db Hb);
    reflexivity.
Defined.

Lemma queued_not_listed eventId attendeeId qs :
  Forall (λ m, MobileMessage.deliveryStatus m = queued) qs →
  filter (whereClause eventId attendeeId) qs = [].
Proof.
  induction 1 as [|m qs Hq _ IH]; [done|].
  rewrite filter_cons, IH, decide_False; [done|].
  intros (_ & Hd & _). congruence.
Qed.

(** X22. Queuing shows nothing to anybody: a broadcast to the 'invited'
    audience, like a request naming an invite, leaves every recipient-facing
    listing, of every event and attendee, exactly as it was. *)
Theorem queued_creation_not_listed
    (schema : Schema) (eventId : string) (data : MessageData.t) (db : Db) :
  (isBroadcast data ∧ MessageData.audience data = Str "invited")
  ∨ (truthy (MessageData.attendeeId data) = false
     ∧ truthy (MessageData.inviteId data) = true) →
  ∀ eventId' attendeeId,
    (getMobileMessages eventId' attendeeId
       (createMessage schema eventId data db).2).1
    = (getMobileMessages eventId' attendeeId db).1.
Proof.
  intros Hcase eventId' attendeeId.
  assert (Hqs : ∃ r qs,
    createMessage schema eventId data db
    = (Returned r, with_mobileMessage db (mobileMessage db ++ qs))
    ∧ Forall (λ m, MobileMessage.deliveryStatus m = queued) qs).
  { destruct Hcase as [[Hb Haud]|[Hatt Hinv]].
    - destruct (promiseAllMap_creates (createForInvite schema eventId data)
                  (λ _, queuedFor eventId data)
                  (createForInvite_creates schema eventId data)
                  (invitesOf db eventId) db) as (qs & Hrun & HR).
      exists (head qs), qs. split.
      + unfold createMessage. rewrite (isBroadcast_guard data Hb).
        destruct Hb as (-> & -> & _). rewrite Haud. simpl.
        unfold mbind at 1, M_bind, findMany.
        unfold mbind at 1, M_bind. fold (invitesOf db eventId).
        unfold mbind at 1, M_bind. by rewrite Hrun.
      + eapply Forall2_Forall_r; [exact HR|]. apply Forall_forall.
        by intros i _ m (_ & _ & _ & _ & _ & ? & _).
    - unfold createMessage. rewrite Hatt, Hinv.
      eexists _, [_]. split; [reflexivity|]. by repeat constructor. }
  destruct Hqs as (r & qs & -> & Hq).
  unfold getMobileMessages. run.
  by rewrite !filter_app, (queued_not_listed _ _ _ Hq), app_nil_r.
Qed.

(** The 'invited' broadcast of [Fixtures.toInvited] on [Demo.dbWithWaiting]. *)
Lemma queued_creation_not_listed_witness :
  isBroadcast Fixtures.toInvited
  ∧ ∀ eventId' attendeeId,
      (getMobileMessages eventId' attendeeId
         (createMessage Demo.schema "E1" Fixtures.toInvited
            Demo.dbWithWaiting).2).1
      = (getMobileMessages eventId' attendeeId Demo.dbWithWaiting).1.
Proof.
  assert (Hb : isBroadcast Fixtures.toInvited)
    by (split; [reflexivity|split; [reflexivity|left; reflexivity]]).
  split; [exact Hb|].
  apply (queued_creation_not_listed Demo.schema "E1" Fixtures.toInvited
           Demo.dbWithWaiting).
  left. split; [exact Hb|reflexivity].
Defined.
